(** * GPUcudaMallocAsyncAllocator: bookkeeping of the stream-ordered pool allocator

    Shallow embedding of
    [tensorflow/core/common_runtime/gpu/gpu_cudamallocasync_allocator.cc]
    in the configuration where the body of the allocator is compiled
    ([GOOGLE_CUDA] defined and [CUDA_VERSION >= 11020]).

    The CUDA driver is the environment: every driver call that returns
    something the allocator looks at takes the driver's answer as an
    argument.  The object's mutable members ([stats_], [size_map_] and the
    mutex [lock_]) are threaded through a small state monad that also
    records, in source order, the actions a method performs together with
    the state of [lock_] at that moment. *)

From Stdlib Require Import ZArith Lia List.
From stdpp Require Import base option gmap fin_maps strings pretty.

Local Open Scope Z_scope.

(** ** Machine integers

    [int64] and [size_t] values are integers with the wrap-around of the
    conversions written out. *)

Module Cxx.

Definition int64_min : Z := - 2 ^ 63.
Definition int64_max : Z := 2 ^ 63 - 1.
Definition size_max : Z := 2 ^ 64 - 1.

Definition is_int64 (z : Z) : Prop := int64_min <= z <= int64_max.
Definition is_size_t (z : Z) : Prop := 0 <= z <= size_max.

(** Conversion to [int64] (two's complement). *)
Definition to_int64 (z : Z) : Z := (z + 2 ^ 63) mod 2 ^ 64 - 2 ^ 63.

(** Conversion to [size_t]. *)
Definition to_size_t (z : Z) : Z := z mod 2 ^ 64.

(** [a + b] and [a - b] where [a] is an [int64] lvalue and [b] a [size_t]:
    the usual arithmetic conversions compute in [size_t], and the
    compound assignment converts the result back to [int64]. *)
Definition add_assign (a b : Z) : Z := to_int64 (to_size_t (to_size_t a + b)).
Definition sub_assign (a b : Z) : Z := to_int64 (to_size_t (to_size_t a - b)).

(** [++a] on an [int64]. *)
Definition pre_incr (a : Z) : Z := to_int64 (a + 1).

(** [std::max<std::size_t>(a, b)] with [a] an [int64], assigned back to an
    [int64]. *)
Definition max_size_t (a b : Z) : Z := to_int64 (Z.max (to_size_t a) b).

End Cxx.

Import Cxx.

(** ** CUDA runtime values *)

Definition cudaError_t := Z.
Definition cudaSuccess : cudaError_t := 0.
Definition cudaErrorMemoryAllocation : cudaError_t := 2.
Definition cudaErrorNotSupported : cudaError_t := 801.

(** Device addresses are opaque 64-bit handles. *)
Definition nullptr : Z := 0.

(** ** Data model *)

(** Modelled from the spec: the statistics record [AllocatorStats] is declared
    in [tensorflow/core/framework/allocator.h]; its fields are the ones of the
    spec's data model, the counters are [int64] and [bytes_limit] is an
    optional [int64], all zero or empty when default-constructed. *)
Record AllocatorStats := mkStats {
  num_allocs : Z;
  bytes_in_use : Z;
  peak_bytes_in_use : Z;
  largest_alloc_size : Z;
  bytes_limit : option Z
}.

Definition AllocatorStats_default : AllocatorStats :=
  mkStats 0 0 0 0 None.

Definition set_num_allocs (v : Z) (s : AllocatorStats) : AllocatorStats :=
  mkStats v (bytes_in_use s) (peak_bytes_in_use s) (largest_alloc_size s)
          (bytes_limit s).
Definition set_bytes_in_use (v : Z) (s : AllocatorStats) : AllocatorStats :=
  mkStats (num_allocs s) v (peak_bytes_in_use s) (largest_alloc_size s)
          (bytes_limit s).
Definition set_peak_bytes_in_use (v : Z) (s : AllocatorStats) : AllocatorStats :=
  mkStats (num_allocs s) (bytes_in_use s) v (largest_alloc_size s)
          (bytes_limit s).
Definition set_largest_alloc_size (v : Z) (s : AllocatorStats) : AllocatorStats :=
  mkStats (num_allocs s) (bytes_in_use s) (peak_bytes_in_use s) v
          (bytes_limit s).
Definition set_bytes_limit (v : option Z) (s : AllocatorStats) : AllocatorStats :=
  mkStats (num_allocs s) (bytes_in_use s) (peak_bytes_in_use s)
          (largest_alloc_size s) v.

(** Modelled from the spec: the members are declared in
    [gpu_cudamallocasync_allocator.h]; the instance owns one statistics
    record, one size-tracking map from addresses to requested byte counts
    with unique keys, and one mutex.  The map is used through [operator[]],
    [at] and [erase] of the standard associative containers.  [lock_] is
    [true] while the mutex is held. *)
Record GPUcudaMallocAsyncAllocator := mkAllocator {
  stats_ : AllocatorStats;
  size_map_ : gmap Z Z;
  lock_ : bool
}.

Definition with_stats (f : AllocatorStats -> AllocatorStats)
    (a : GPUcudaMallocAsyncAllocator) : GPUcudaMallocAsyncAllocator :=
  mkAllocator (f (stats_ a)) (size_map_ a) (lock_ a).
Definition with_size_map (f : gmap Z Z -> gmap Z Z)
    (a : GPUcudaMallocAsyncAllocator) : GPUcudaMallocAsyncAllocator :=
  mkAllocator (stats_ a) (f (size_map_ a)) (lock_ a).
Definition with_lock (b : bool)
    (a : GPUcudaMallocAsyncAllocator) : GPUcudaMallocAsyncAllocator :=
  mkAllocator (stats_ a) (size_map_ a) b.

(** ** Actions and the method monad *)

Inductive driver_fn :=
| cudaMalloc | cudaFree | cudaDeviceGetAttribute | cudaStreamCreate
| cudaDeviceGetDefaultMemPool | cudaMemPoolSetAttribute
| cudaMallocFromPoolAsync | cudaFreeAsync | cudaMemGetInfo.

Inductive action :=
| Acquire                      (* mutex_lock l(lock_) *)
| Release                      (* end of the scope of the mutex_lock *)
| Activate                     (* ScopedActivateExecutorContext *)
| Driver (f : driver_fn)
| ReadStats | WriteStats
| ReadSizeMap | WriteSizeMap
| LogError                     (* LOG(ERROR) *)
| VLog (level : Z).            (* VLOG(level) *)

(** An action together with the state of [lock_] when it is performed. *)
Record event := mkEvent { act : action; locked : bool }.

(** How a method ends: it returns, the process is aborted ([CHECK],
    [TF_CHECK_OK], [ValueOrDie]), or [std::out_of_range] is thrown by the
    container's [at]. *)
Inductive outcome (A : Type) :=
| Normal (a : A)
| Fatal
| OutOfRange.
Arguments Normal {A} a.
Arguments Fatal {A}.
Arguments OutOfRange {A}.

Record run (A : Type) := mkRun {
  result : outcome A;
  final : GPUcudaMallocAsyncAllocator;
  trace : list event
}.
Arguments mkRun {A} _ _ _.
Arguments result {A} _.
Arguments final {A} _.
Arguments trace {A} _.

Definition M (A : Type) : Type := GPUcudaMallocAsyncAllocator -> run A.

Definition ret {A} (a : A) : M A := fun s => mkRun (Normal a) s [].

Definition bind {A B} (m : M A) (k : A -> M B) : M B := fun s =>
  let r := m s in
  match result r with
  | Normal a =>
      let r' := k a (final r) in
      mkRun (result r') (final r') (trace r ++ trace r')
  | Fatal => mkRun Fatal (final r) (trace r)
  | OutOfRange => mkRun OutOfRange (final r) (trace r)
  end.

Declare Scope method_scope.
Delimit Scope method_scope with method.
Notation "x <- m ;; k" := (bind m (fun x => k))
  (at level 100, m at next level, right associativity) : method_scope.
Notation "m ;; k" := (bind m (fun _ => k))
  (at level 100, right associativity) : method_scope.
Local Open Scope method_scope.

Definition emit (a : action) : M unit := fun s =>
  mkRun (Normal tt) s [mkEvent a (lock_ s)].

Definition abort {A} : M A := fun s => mkRun Fatal s [].
Definition throw_out_of_range {A} : M A := fun s => mkRun OutOfRange s [].

Definition read_stats : M AllocatorStats := fun s =>
  mkRun (Normal (stats_ s)) s [mkEvent ReadStats (lock_ s)].
Definition modify_stats (f : AllocatorStats -> AllocatorStats) : M unit := fun s =>
  mkRun (Normal tt) (with_stats f s) [mkEvent WriteStats (lock_ s)].
Definition read_size_map : M (gmap Z Z) := fun s =>
  mkRun (Normal (size_map_ s)) s [mkEvent ReadSizeMap (lock_ s)].
Definition modify_size_map (f : gmap Z Z -> gmap Z Z) : M unit := fun s =>
  mkRun (Normal tt) (with_size_map f s) [mkEvent WriteSizeMap (lock_ s)].

Definition acquire : M unit := fun s =>
  mkRun (Normal tt) (with_lock true s) [mkEvent Acquire (lock_ s)].
Definition release : M unit := fun s =>
  mkRun (Normal tt) (with_lock false s) [mkEvent Release (lock_ s)].

(** [mutex_lock l(lock_);] guarding the rest of the enclosing scope. *)
Definition mutex_lock {A} (body : M A) : M A :=
  acquire ;;
  a <- body ;;
  release ;;
  ret a.

(** [CHECK(cond)] *)
Definition CHECK (cond : bool) : M unit :=
  if cond then ret tt else abort.

(** A driver call whose answer [ans] is supplied by the environment. *)
Definition driver {A} (f : driver_fn) (ans : A) : M A :=
  emit (Driver f) ;; ret ans.

(** [stats_.DebugString()] *)
Definition DebugString : M unit := _ <- read_stats ;; ret tt.

(** [size_map_[ptr]] read as an rvalue: an absent key is inserted with a
    value-initialised (zero) size. *)
Definition size_map_subscript (ptr : Z) : M Z :=
  m <- read_size_map ;;
  match m !! ptr with
  | Some v => ret v
  | None => modify_size_map (insert ptr 0) ;; ret 0
  end.

(** [size_map_.at(ptr)] *)
Definition size_map_at (ptr : Z) : M Z :=
  m <- read_size_map ;;
  match m !! ptr with
  | Some v => ret v
  | None => throw_out_of_range
  end.

(** ** The methods *)

(** [AllocateRaw(alignment, num_bytes)].  [drv] is the answer of
    [cudaMallocFromPoolAsync]: its status and the address it stored in [rv]. *)
Definition AllocateRaw (drv : cudaError_t * Z) (alignment num_bytes : Z) : M Z :=
  emit Activate ;;
  ans <- driver cudaMallocFromPoolAsync drv ;;
  let res := fst ans in
  let rv := snd ans in
  if negb (res =? cudaSuccess) then
    driver cudaMemGetInfo tt ;;
    DebugString ;;
    emit LogError ;;
    ret nullptr
  else
    modify_stats (fun s => set_num_allocs (pre_incr (num_allocs s)) s) ;;
    modify_stats (fun s => set_bytes_in_use (add_assign (bytes_in_use s) num_bytes) s) ;;
    modify_stats (fun s =>
      set_peak_bytes_in_use (Z.max (peak_bytes_in_use s) (bytes_in_use s)) s) ;;
    modify_stats (fun s =>
      set_largest_alloc_size (max_size_t (largest_alloc_size s) num_bytes) s) ;;
    modify_size_map (insert rv num_bytes) ;;
    emit (VLog 10) ;;
    ret rv.

(** [DeallocateRaw(ptr)].  [drv] is the status of [cudaFreeAsync]. *)
Definition DeallocateRaw (drv : cudaError_t) (ptr : Z) : M unit :=
  res <- driver cudaFreeAsync drv ;;
  (if negb (res =? cudaSuccess) then
     emit Activate ;;
     driver cudaMemGetInfo tt ;;
     DebugString ;;
     emit LogError
   else ret tt) ;;
  size <- size_map_subscript ptr ;;
  modify_stats (fun s => set_bytes_in_use (sub_assign (bytes_in_use s) size) s) ;;
  modify_size_map (delete ptr) ;;
  emit (VLog 10).

Definition TracksAllocationSizes : M bool := ret true.

Definition RequestedSize (ptr : Z) : M Z :=
  CHECK (negb (ptr =? nullptr)) ;;
  size_map_at ptr.

Definition AllocatedSize (ptr : Z) : M Z :=
  CHECK (negb (ptr =? nullptr)) ;;
  size_map_at ptr.

Definition GetStats : M (option AllocatorStats) :=
  mutex_lock (s <- read_stats ;; ret (Some s)).

Definition ClearStats : M unit :=
  mutex_lock (
    modify_stats (set_num_allocs 0) ;;
    modify_stats (fun s => set_peak_bytes_in_use (bytes_in_use s) s) ;;
    modify_stats (set_largest_alloc_size 0)).

(** What the environment answers during construction. *)
Record ctor_env := mkCtorEnv {
  executor_found : bool;               (* ExecutorForPlatformGpuId(platform_gpu_id) holds a value *)
  executor0_found : bool;              (* ExecutorForPlatformGpuId(PlatformGpuId(0)) holds a value *)
  cuda_malloc_async_supported : Z;     (* written by cudaDeviceGetAttribute *)
  stream_create_err : cudaError_t;     (* cudaStreamCreate *)
  default_pool_err : cudaError_t;      (* cudaDeviceGetDefaultMemPool *)
  set_threshold_err : cudaError_t;     (* cudaMemPoolSetAttribute, release threshold *)
  deterministic_ops_env : option bool; (* ReadBoolFromEnvVar; None when its status is not OK *)
  prewarm_alloc : cudaError_t * Z;     (* cudaMallocFromPoolAsync of the pre-fill *)
  prewarm_free : cudaError_t           (* cudaFreeAsync of the pre-fill *)
}.

(** [.ValueOrDie()] and [TF_CHECK_OK] *)
Definition ValueOrDie (found : bool) : M unit :=
  if found then ret tt else abort.
Definition TF_CHECK_OK {A} (status : option A) : M A :=
  match status with Some a => ret a | None => abort end.

(** The members as the member initialisers leave them. *)
Definition fresh_instance : GPUcudaMallocAsyncAllocator :=
  mkAllocator AllocatorStats_default ∅ false.

(** The body of the constructor, run on [fresh_instance]. *)
Definition construct (env : ctor_env) (platform_gpu_id pool_size : Z)
    (reserve_memory : bool) : M unit :=
  ValueOrDie (executor_found env) ;;
  (if 0 <? platform_gpu_id then
     ValueOrDie (executor0_found env) ;;
     emit Activate ;;
     driver cudaMalloc tt ;;
     driver cudaFree tt
   else ret tt) ;;
  emit Activate ;;
  supported <- driver cudaDeviceGetAttribute (cuda_malloc_async_supported env) ;;
  (if supported =? 0 then emit LogError else ret tt) ;;
  cerr <- driver cudaStreamCreate (stream_create_err env) ;;
  (if negb (cerr =? cudaSuccess) then emit LogError else ret tt) ;;
  cerr <- driver cudaDeviceGetDefaultMemPool (default_pool_err env) ;;
  (if negb (cerr =? cudaSuccess) then emit LogError else ret tt) ;;
  emit (VLog 1) ;;
  cerr <- driver cudaMemPoolSetAttribute (set_threshold_err env) ;;
  modify_stats (set_bytes_limit (Some (to_int64 pool_size))) ;;
  (if negb (cerr =? cudaSuccess) then emit LogError else ret tt) ;;
  deterministic_ops <- TF_CHECK_OK (deterministic_ops_env env) ;;
  (if deterministic_ops : bool then
     driver cudaMemPoolSetAttribute tt ;;
     driver cudaMemPoolSetAttribute tt
   else ret tt) ;;
  emit (VLog 2) ;;
  if reserve_memory then
    ptr <- AllocateRaw (prewarm_alloc env) 0 pool_size ;;
    DeallocateRaw (prewarm_free env) ptr ;;
    emit (VLog 2) ;;
    ClearStats
  else ret tt.

Definition GPUcudaMallocAsyncAllocator_new (env : ctor_env)
    (platform_gpu_id pool_size : Z) (reserve_memory : bool)
    : run unit :=
  construct env platform_gpu_id pool_size reserve_memory fresh_instance.

(** ** Calls made by a client, with the driver's answers *)

Inductive call :=
| CallAllocateRaw (drv : cudaError_t * Z) (alignment num_bytes : Z)
| CallDeallocateRaw (drv : cudaError_t) (ptr : Z)
| CallGetStats
| CallClearStats.

Definition exec (c : call) (s : GPUcudaMallocAsyncAllocator)
    : GPUcudaMallocAsyncAllocator :=
  match c with
  | CallAllocateRaw drv alignment num_bytes =>
      final (AllocateRaw drv alignment num_bytes s)
  | CallDeallocateRaw drv ptr => final (DeallocateRaw drv ptr s)
  | CallGetStats => final (GetStats s)
  | CallClearStats => final (ClearStats s)
  end.

Definition exec_all (cs : list call) (s : GPUcudaMallocAsyncAllocator)
    : GPUcudaMallocAsyncAllocator :=
  fold_left (fun s c => exec c s) cs s.

(** The events of a call. *)
Definition events (c : call) (s : GPUcudaMallocAsyncAllocator) : list event :=
  match c with
  | CallAllocateRaw drv alignment num_bytes =>
      trace (AllocateRaw drv alignment num_bytes s)
  | CallDeallocateRaw drv ptr => trace (DeallocateRaw drv ptr s)
  | CallGetStats => trace (GetStats s)
  | CallClearStats => trace (ClearStats s)
  end.

(** ** Predicates on instances *)

(** The sum of the sizes recorded in the size-tracking map. *)
Definition sum_sizes (m : gmap Z Z) : Z :=
  map_fold (fun _ v acc => v + acc) 0 m.

(** Every recorded size is a [size_t] value. *)
Definition sizes_typed (m : gmap Z Z) : Prop :=
  map_Forall (fun _ v => is_size_t v) m.

(** The four counters hold non-negative [int64] values. *)
Definition counters_in_range (t : AllocatorStats) : Prop :=
  0 <= num_allocs t <= int64_max /\
  0 <= bytes_in_use t <= int64_max /\
  0 <= peak_bytes_in_use t <= int64_max /\
  0 <= largest_alloc_size t <= int64_max.

(** The bookkeeping invariant: well-typed members, and [bytes_in_use] is the
    sum of the recorded sizes. *)
Definition accounted (s : GPUcudaMallocAsyncAllocator) : Prop :=
  counters_in_range (stats_ s) /\
  sizes_typed (size_map_ s) /\
  bytes_in_use (stats_ s) = sum_sizes (size_map_ s).

(** [peak_bytes_in_use >= bytes_in_use]. *)
Definition peak_covers (s : GPUcudaMallocAsyncAllocator) : Prop :=
  bytes_in_use (stats_ s) <= peak_bytes_in_use (stats_ s).

(** What is assumed of the driver and of the size of the device when call
    [c] is made in state [s]: a successful pool allocation is asked for a
    [size_t] number of bytes, returns an address that is not live (or that
    is recorded with size zero), and neither the allocation counter nor the
    number of bytes in use leaves the [int64] range. *)
Definition admissible (s : GPUcudaMallocAsyncAllocator) (c : call) : Prop :=
  match c with
  | CallAllocateRaw drv _ num_bytes =>
      fst drv = cudaSuccess ->
      is_size_t num_bytes /\
      default 0 (size_map_ s !! snd drv) = 0 /\
      num_allocs (stats_ s) < int64_max /\
      bytes_in_use (stats_ s) + num_bytes <= int64_max
  | _ => True
  end.

Fixpoint admissible_run (cs : list call) (s : GPUcudaMallocAsyncAllocator)
    : Prop :=
  match cs with
  | [] => True
  | c :: cs' => admissible s c /\ admissible_run cs' (exec c s)
  end.

(** Calls that neither free [p] nor hand [p] out again. *)
Definition keeps (p : Z) (c : call) : Prop :=
  match c with
  | CallAllocateRaw drv _ _ => fst drv = cudaSuccess -> snd drv <> p
  | CallDeallocateRaw _ ptr => ptr <> p
  | _ => True
  end.

(** A call of [AllocateRaw] whose pool allocation the driver refuses. *)
Definition refused_allocation (c : call) : Prop :=
  match c with
  | CallAllocateRaw drv _ _ => fst drv <> cudaSuccess
  | _ => False
  end.

(** Every write to [stats_] or [size_map_] in the trace happens with
    [lock_] held. *)
Definition writes_locked (t : list event) : bool :=
  forallb (fun e =>
    match act e with
    | WriteStats | WriteSizeMap => locked e
    | _ => true
    end) t.

(** No driver call in the trace happens with [lock_] held. *)
Definition driver_unlocked (t : list event) : bool :=
  forallb (fun e =>
    match act e with
    | Driver _ => negb (locked e)
    | _ => true
    end) t.

(** Whether the trace takes the mutex at all. *)
Definition acquires (t : list event) : bool :=
  existsb (fun e => match act e with Acquire => true | _ => false end) t.

(** The predicates are decidable. *)

#[global] Instance is_int64_dec z : Decision (is_int64 z).
Proof. unfold is_int64. apply _. Defined.

#[global] Instance is_size_t_dec z : Decision (is_size_t z).
Proof. unfold is_size_t. apply _. Defined.

#[global] Instance counters_in_range_dec t : Decision (counters_in_range t).
Proof. unfold counters_in_range. apply _. Defined.

#[global] Instance sizes_typed_dec m : Decision (sizes_typed m).
Proof. unfold sizes_typed. apply _. Defined.

#[global] Instance accounted_dec s : Decision (accounted s).
Proof. unfold accounted. apply _. Defined.

#[global] Instance peak_covers_dec s : Decision (peak_covers s).
Proof. unfold peak_covers. apply _. Defined.

#[global] Instance admissible_dec s c : Decision (admissible s c).
Proof. destruct c; cbn; apply _. Defined.

#[global] Instance admissible_run_dec cs s : Decision (admissible_run cs s).
Proof. revert s. induction cs; intros s; cbn; apply _. Defined.

#[global] Instance keeps_dec p c : Decision (keeps p c).
Proof. destruct c; cbn; apply _. Defined.

#[global] Instance refused_allocation_dec c : Decision (refused_allocation c).
Proof. destruct c; cbn; apply _. Defined.

(** ** Results and final states, without the trace *)

Definition effect {A} (m : M A) (s : GPUcudaMallocAsyncAllocator)
    : outcome A * GPUcudaMallocAsyncAllocator :=
  (result (m s), final (m s)).

(** The statistics after the four updates of a successful [AllocateRaw]. *)
Definition stats_after_alloc (num_bytes : Z) (t : AllocatorStats)
    : AllocatorStats :=
  let bytes := add_assign (bytes_in_use t) num_bytes in
  mkStats (pre_incr (num_allocs t)) bytes
          (Z.max (peak_bytes_in_use t) bytes)
          (max_size_t (largest_alloc_size t) num_bytes)
          (bytes_limit t).

(** The events of the actions [acts], all performed with [lock_] in
    state [l]. *)
Definition at_lock (l : bool) (acts : list action) : list event :=
  map (fun a => mkEvent a l) acts.

(** ** A construction and a run used as examples *)

Definition example_env : ctor_env :=
  mkCtorEnv true true 1 cudaSuccess cudaSuccess cudaSuccess (Some false)
            (cudaSuccess, 4096) cudaSuccess.

Definition example_calls : list call :=
  [CallAllocateRaw (cudaSuccess, 4096) 0 1024;
   CallAllocateRaw (cudaSuccess, 8192) 0 4096;
   CallAllocateRaw (cudaErrorMemoryAllocation, 0) 0 65536;
   CallDeallocateRaw cudaSuccess 4096;
   CallClearStats].

(** A device that reports no support for memory pools and refuses every
    pool allocation. *)
Definition unsupported_env : ctor_env :=
  mkCtorEnv true true 0 cudaSuccess cudaErrorNotSupported
            cudaErrorNotSupported (Some false)
            (cudaErrorNotSupported, 0) cudaErrorNotSupported.

Create Rewrite HintDb effect.

(** Rewrite with the equations of [effect] as far as they go. *)
Ltac step_effect :=
  repeat first
    [ progress autorewrite with effect
    | progress cbv beta iota zeta
    | progress cbn [fst snd negb] ].

(** The same, unfolding the trace of a sequence with the equation [eqn]. *)
Ltac step_trace eqn :=
  repeat first [ progress rewrite eqn | progress step_effect ].

(** Run a method symbolically, splitting on every condition it tests. *)
Ltac run_effect :=
  repeat first
    [ progress step_effect
    | match goal with
      | |- context [if ?c then _ else _] => destruct c
      | |- context [match ?o with Some _ => _ | None => _ end] => destruct o
      end ].

(** ** Construction: when it aborts *)

(** Whether construction aborts: an executor is missing ([ValueOrDie]) or
    the environment variable cannot be read ([TF_CHECK_OK]). *)
Definition ctor_aborts (env : ctor_env) (platform_gpu_id : Z) : bool :=
  negb (executor_found env)
  || ((0 <? platform_gpu_id) && negb (executor0_found env))
  || match deterministic_ops_env env with Some _ => false | None => true end.
(** ** Reading a trace *)

(** The driver calls of a trace, in the order they are made. *)
Definition driver_calls (t : list event) : list driver_fn :=
  omap (fun e => match act e with Driver f => Some f | _ => None end) t.

(** The number of [LOG(ERROR)] lines of a trace. *)
Definition is_error_log (e : event) : bool :=
  match act e with LogError => true | _ => false end.
Definition errors_logged (t : list event) : nat :=
  length (List.filter is_error_log t).

(** The driver calls of the constructor, read off its body: the calls that
    touch device 0, the set-up of the pool, the two reuse attributes, and
    the pre-fill with the diagnostics of its failures. *)
Definition construct_driver_calls (env : ctor_env) (platform_gpu_id : Z)
    (reserve_memory : bool) : list driver_fn :=
  (if 0 <? platform_gpu_id then [cudaMalloc; cudaFree] else []) ++
  [cudaDeviceGetAttribute; cudaStreamCreate; cudaDeviceGetDefaultMemPool;
   cudaMemPoolSetAttribute] ++
  (match deterministic_ops_env env with
   | Some true => [cudaMemPoolSetAttribute; cudaMemPoolSetAttribute]
   | _ => []
   end) ++
  (if reserve_memory then
     [cudaMallocFromPoolAsync] ++
     (if fst (prewarm_alloc env) =? cudaSuccess then [] else [cudaMemGetInfo]) ++
     [cudaFreeAsync] ++
     (if prewarm_free env =? cudaSuccess then [] else [cudaMemGetInfo])
   else []).

(** One for a failed step, zero for a successful one. *)
Definition failed (err : cudaError_t) : nat :=
  if err =? cudaSuccess then 0%nat else 1%nat.

(** The number of steps of the constructor that fail and are logged. *)
Definition construct_failures (env : ctor_env) (reserve_memory : bool) : nat :=
  let unsupported :=
    if cuda_malloc_async_supported env =? 0 then 1%nat else 0%nat in
  let prefill :=
    if reserve_memory
    then (failed (fst (prewarm_alloc env)) + failed (prewarm_free env))%nat
    else 0%nat in
  (unsupported + failed (stream_create_err env) +
   failed (default_pool_err env) + failed (set_threshold_err env) +
   prefill)%nat.
(** ** Reading a run of calls *)

(** The size of a call that is a granted allocation. *)
Definition granted (c : call) : option Z :=
  match c with
  | CallAllocateRaw drv _ num_bytes =>
      if fst drv =? cudaSuccess then Some num_bytes else None
  | _ => None
  end.

(** The sizes of the granted allocations of a run, in order. *)
Definition granted_sizes (cs : list call) : list Z := omap granted cs.

Definition is_ClearStats (c : call) : bool :=
  match c with CallClearStats => true | _ => false end.

Definition is_GetStats (c : call) : bool :=
  match c with CallGetStats => true | _ => false end.

(** The addresses that are live after a call, from those live before it. *)
Definition live_step (live : gset Z) (c : call) : gset Z :=
  match c with
  | CallAllocateRaw drv _ _ =>
      if fst drv =? cudaSuccess then {[snd drv]} ∪ live else live
  | CallDeallocateRaw _ ptr => live ∖ {[ptr]}
  | _ => live
  end.

(** The driver hands out only addresses that are not live, or recorded
    with size zero, along the run. *)
Fixpoint fresh_run (cs : list call) (s : GPUcudaMallocAsyncAllocator) : Prop :=
  match cs with
  | [] => True
  | c :: cs' =>
      match c with
      | CallAllocateRaw drv _ _ =>
          fst drv = cudaSuccess -> default 0 (size_map_ s !! snd drv) = 0
      | _ => True
      end /\ fresh_run cs' (exec c s)
  end.

(** The events of a run. *)
Fixpoint events_all (cs : list call) (s : GPUcudaMallocAsyncAllocator)
    : list event :=
  match cs with
  | [] => []
  | c :: cs' => events c s ++ events_all cs' (exec c s)
  end.

(** The number of driver calls of a run that fail. *)
Definition driver_failures (cs : list call) : nat :=
  sum_list (map (fun c =>
    match c with
    | CallAllocateRaw drv _ _ => failed (fst drv)
    | CallDeallocateRaw drv _ => failed drv
    | _ => 0%nat
    end) cs).

(** What the statistics and the map hold, the mutex apart. *)
Definition bookkeeping (s : GPUcudaMallocAsyncAllocator)
    : AllocatorStats * gmap Z Z :=
  (stats_ s, size_map_ s).

(** How often an action occurs in a trace. *)
Definition count_action (a : action) (t : list event) : nat :=
  length (List.filter (fun e =>
    match a, act e with
    | Acquire, Acquire | Release, Release => true
    | _, _ => false
    end) t).
(** ** The name of an instance *)

(** The member initialiser [name_(absl::StrCat("gpu_async_",
    platform_gpu_id.value()))]: the prefix followed by the device index in
    decimal. *)
Definition name_ (platform_gpu_id : Z) : string :=
  "gpu_async_" +:+ pretty platform_gpu_id.
(** The states an instance goes through during a run, one after each call. *)
Fixpoint states_after (cs : list call) (s : GPUcudaMallocAsyncAllocator)
    : list GPUcudaMallocAsyncAllocator :=
  match cs with
  | [] => []
  | c :: cs' => exec c s :: states_after cs' (exec c s)
  end.

(** ** Facts about the conversions *)

Module CxxFacts.

Lemma two64 : 2 ^ 64 = 18446744073709551616.
Proof. reflexivity. Qed.

Lemma two63 : 2 ^ 63 = 9223372036854775808.
Proof. reflexivity. Qed.

Lemma to_int64_id z : is_int64 z -> to_int64 z = z.
Proof.
  unfold is_int64, int64_min, int64_max, to_int64.
  rewrite two63, two64. intros H.
  rewrite Z.mod_small; lia.
Qed.

Lemma to_int64_is_int64 z : is_int64 (to_int64 z).
Proof.
  unfold is_int64, int64_min, int64_max, to_int64. rewrite two63, two64.
  pose proof (Z.mod_pos_bound (z + 9223372036854775808)
                18446744073709551616 ltac:(lia)).
  lia.
Qed.

Lemma to_int64_to_size_t z : to_int64 (to_size_t z) = to_int64 z.
Proof. unfold to_int64, to_size_t. now rewrite Zplus_mod_idemp_l. Qed.

Lemma to_int64_mod_eq a b :
  a mod 2 ^ 64 = b mod 2 ^ 64 -> to_int64 a = to_int64 b.
Proof.
  intros H. unfold to_int64.
  rewrite <- (Zplus_mod_idemp_l a), <- (Zplus_mod_idemp_l b), H.
  reflexivity.
Qed.

Lemma to_int64_congr_mod z : (to_int64 z) mod 2 ^ 64 = z mod 2 ^ 64.
Proof.
  unfold to_int64. rewrite Zminus_mod_idemp_l. f_equal. lia.
Qed.

Lemma add_assign_eq a b : add_assign a b = to_int64 (a + b).
Proof.
  unfold add_assign. rewrite to_int64_to_size_t. apply to_int64_mod_eq.
  unfold to_size_t. now rewrite Zplus_mod_idemp_l.
Qed.

Lemma sub_assign_eq a b : sub_assign a b = to_int64 (a - b).
Proof.
  unfold sub_assign. rewrite to_int64_to_size_t. apply to_int64_mod_eq.
  unfold to_size_t. now rewrite Zminus_mod_idemp_l.
Qed.

(** Adding a size and taking it away again is exact, whatever the size. *)
Lemma sub_assign_add_assign a n :
  sub_assign (add_assign a n) n = to_int64 a.
Proof.
  rewrite sub_assign_eq, add_assign_eq. apply to_int64_mod_eq.
  rewrite <- Zminus_mod_idemp_l, to_int64_congr_mod, Zminus_mod_idemp_l.
  f_equal. lia.
Qed.

Lemma add_assign_exact a b : is_int64 (a + b) -> add_assign a b = a + b.
Proof. intros H. rewrite add_assign_eq. now apply to_int64_id. Qed.

Lemma sub_assign_exact a b : is_int64 (a - b) -> sub_assign a b = a - b.
Proof. intros H. rewrite sub_assign_eq. now apply to_int64_id. Qed.

Lemma pre_incr_exact a : is_int64 (a + 1) -> pre_incr a = a + 1.
Proof. apply to_int64_id. Qed.

Lemma max_size_t_exact a b :
  0 <= a <= int64_max -> 0 <= b <= int64_max -> max_size_t a b = Z.max a b.
Proof.
  unfold max_size_t, to_size_t, int64_max. rewrite two63, two64.
  intros Ha Hb. rewrite (Z.mod_small a) by lia.
  apply to_int64_id. unfold is_int64, int64_min, int64_max.
  rewrite two63. lia.
Qed.

End CxxFacts.

Import CxxFacts.

Arguments to_int64 : simpl never.
Arguments to_size_t : simpl never.
Arguments add_assign : simpl never.
Arguments sub_assign : simpl never.
Arguments pre_incr : simpl never.
Arguments max_size_t : simpl never.

(** ** Equations of [effect] and [trace] *)

Section Effect.

Context {A B : Type}.
Implicit Types (s : GPUcudaMallocAsyncAllocator).

Lemma effect_bind (m : M A) (k : A -> M B) s :
  effect (bind m k) s =
    match effect m s with
    | (Normal a, s') => effect (k a) s'
    | (Fatal, s') => (Fatal, s')
    | (OutOfRange, s') => (OutOfRange, s')
    end.
Proof. unfold effect, bind. cbn. now destruct (result (m s)). Qed.

Lemma trace_bind (m : M A) (k : A -> M B) s :
  trace (bind m k s) =
    trace (m s) ++
    match effect m s with
    | (Normal a, s') => trace (k a s')
    | _ => []
    end.
Proof.
  unfold effect, bind. cbn.
  destruct (result (m s)); cbn; now rewrite ?app_nil_r.
Qed.

Lemma effect_ret (a : A) s : effect (ret a) s = (Normal a, s).
Proof. reflexivity. Qed.

Lemma effect_abort s : effect (@abort A) s = (Fatal, s).
Proof. reflexivity. Qed.

Lemma effect_throw_out_of_range s :
  effect (@throw_out_of_range A) s = (OutOfRange, s).
Proof. reflexivity. Qed.

Lemma effect_driver f (ans : A) s : effect (driver f ans) s = (Normal ans, s).
Proof. reflexivity. Qed.

Lemma effect_TF_CHECK_OK (status : option A) s :
  effect (TF_CHECK_OK status) s =
    match status with Some a => (Normal a, s) | None => (Fatal, s) end.
Proof. now destruct status. Qed.

End Effect.

Lemma effect_mutex_lock {A} (body : M A) s :
  effect (mutex_lock body) s =
    match effect body (with_lock true s) with
    | (Normal a, s') => (Normal a, with_lock false s')
    | (Fatal, s') => (Fatal, s')
    | (OutOfRange, s') => (OutOfRange, s')
    end.
Proof.
  unfold mutex_lock. rewrite effect_bind.
  change (effect acquire s) with (Normal tt, with_lock true s).
  cbv beta iota. rewrite effect_bind.
  destruct (effect body (with_lock true s)) as [[a| |] s']; reflexivity.
Qed.

Lemma effect_emit a s : effect (emit a) s = (Normal tt, s).
Proof. reflexivity. Qed.

Lemma effect_read_stats s : effect read_stats s = (Normal (stats_ s), s).
Proof. reflexivity. Qed.

Lemma effect_modify_stats f s :
  effect (modify_stats f) s = (Normal tt, with_stats f s).
Proof. reflexivity. Qed.

Lemma effect_read_size_map s :
  effect read_size_map s = (Normal (size_map_ s), s).
Proof. reflexivity. Qed.

Lemma effect_modify_size_map f s :
  effect (modify_size_map f) s = (Normal tt, with_size_map f s).
Proof. reflexivity. Qed.

Lemma effect_DebugString s : effect DebugString s = (Normal tt, s).
Proof. reflexivity. Qed.

Lemma effect_CHECK cond s :
  effect (CHECK cond) s = if cond then (Normal tt, s) else (Fatal, s).
Proof. now destruct cond. Qed.

Lemma effect_ValueOrDie found s :
  effect (ValueOrDie found) s = if found then (Normal tt, s) else (Fatal, s).
Proof. now destruct found. Qed.

Lemma effect_log_if (c : bool) s :
  effect (if c then emit LogError else ret tt) s = (Normal tt, s).
Proof. now destruct c. Qed.

(** [size_map_[ptr]] yields the recorded size, or zero after inserting it. *)
Lemma effect_size_map_subscript ptr s :
  effect (size_map_subscript ptr) s =
    match size_map_ s !! ptr with
    | Some v => (Normal v, s)
    | None => (Normal 0, with_size_map (insert ptr 0) s)
    end.
Proof.
  unfold size_map_subscript. rewrite effect_bind, effect_read_size_map.
  cbv beta iota. now destruct (size_map_ s !! ptr).
Qed.

Lemma effect_size_map_at ptr s :
  effect (size_map_at ptr) s =
    match size_map_ s !! ptr with
    | Some v => (Normal v, s)
    | None => (OutOfRange, s)
    end.
Proof.
  unfold size_map_at. rewrite effect_bind, effect_read_size_map.
  cbv beta iota. now destruct (size_map_ s !! ptr).
Qed.

#[local] Hint Rewrite @effect_bind @effect_ret @effect_abort
  @effect_throw_out_of_range @effect_driver @effect_TF_CHECK_OK
  @effect_mutex_lock effect_emit effect_read_stats effect_modify_stats
  effect_read_size_map effect_modify_size_map effect_DebugString
  effect_CHECK effect_ValueOrDie effect_log_if effect_size_map_subscript
  effect_size_map_at : effect.

(** ** The result and the state after each method *)

Lemma effect_AllocateRaw drv alignment num_bytes s :
  effect (AllocateRaw drv alignment num_bytes) s =
    if fst drv =? cudaSuccess
    then (Normal (snd drv),
          mkAllocator (stats_after_alloc num_bytes (stats_ s))
                      (<[snd drv := num_bytes]> (size_map_ s)) (lock_ s))
    else (Normal nullptr, s).
Proof.
  unfold AllocateRaw. step_effect.
  destruct (fst drv =? cudaSuccess); step_effect; reflexivity.
Qed.

Lemma effect_DeallocateRaw drv ptr s :
  effect (DeallocateRaw drv ptr) s =
    (Normal tt,
     mkAllocator
       (set_bytes_in_use
          (sub_assign (bytes_in_use (stats_ s))
                      (default 0 (size_map_ s !! ptr))) (stats_ s))
       (delete ptr (size_map_ s)) (lock_ s)).
Proof.
  unfold DeallocateRaw. step_effect.
  destruct (negb (drv =? cudaSuccess)); step_effect;
    destruct (size_map_ s !! ptr) as [v|] eqn:E; step_effect;
    unfold with_size_map, with_stats; cbn;
    rewrite ?delete_insert_eq; reflexivity.
Qed.

Lemma effect_ClearStats s :
  effect ClearStats s =
    (Normal tt,
     mkAllocator
       (mkStats 0 (bytes_in_use (stats_ s)) (bytes_in_use (stats_ s)) 0
                (bytes_limit (stats_ s)))
       (size_map_ s) false).
Proof. reflexivity. Qed.

Lemma effect_GetStats s :
  effect GetStats s =
    (Normal (Some (stats_ s)), mkAllocator (stats_ s) (size_map_ s) false).
Proof. reflexivity. Qed.

Lemma effect_RequestedSize ptr s :
  effect (RequestedSize ptr) s =
    if ptr =? nullptr then (Fatal, s)
    else match size_map_ s !! ptr with
         | Some v => (Normal v, s)
         | None => (OutOfRange, s)
         end.
Proof.
  unfold RequestedSize. step_effect.
  destruct (ptr =? nullptr); step_effect; reflexivity.
Qed.


#[local] Hint Rewrite effect_AllocateRaw effect_DeallocateRaw
  effect_ClearStats effect_GetStats effect_RequestedSize : effect.

Lemma result_effect {A} (m : M A) s : result (m s) = fst (effect m s).
Proof. reflexivity. Qed.

Lemma final_effect {A} (m : M A) s : final (m s) = snd (effect m s).
Proof. reflexivity. Qed.

Lemma AllocateRaw_refused s res rv alignment num_bytes :
  res <> cudaSuccess ->
  result (AllocateRaw (res, rv) alignment num_bytes s) = Normal nullptr /\
  final (AllocateRaw (res, rv) alignment num_bytes s) = s.
Proof.
  intros Hres. apply Z.eqb_neq in Hres.
  rewrite result_effect, final_effect, effect_AllocateRaw. cbn [fst snd].
  now rewrite Hres.
Qed.


Lemma DeallocateRaw_final s drv ptr :
  result (DeallocateRaw drv ptr s) = Normal tt /\
  final (DeallocateRaw drv ptr s) =
    mkAllocator
      (set_bytes_in_use
         (sub_assign (bytes_in_use (stats_ s))
                     (default 0 (size_map_ s !! ptr))) (stats_ s))
      (delete ptr (size_map_ s)) (lock_ s).
Proof. now rewrite result_effect, final_effect, effect_DeallocateRaw. Qed.

(** ** The traces of the methods *)

Lemma trace_AllocateRaw_granted rv alignment num_bytes s :
  trace (AllocateRaw (cudaSuccess, rv) alignment num_bytes s) =
    at_lock (lock_ s)
      [Activate; Driver cudaMallocFromPoolAsync;
       WriteStats; WriteStats; WriteStats; WriteStats; WriteSizeMap; VLog 10].
Proof. reflexivity. Qed.

Lemma trace_AllocateRaw_refused res rv alignment num_bytes s :
  res <> cudaSuccess ->
  trace (AllocateRaw (res, rv) alignment num_bytes s) =
    at_lock (lock_ s)
      [Activate; Driver cudaMallocFromPoolAsync; Driver cudaMemGetInfo;
       ReadStats; LogError].
Proof.
  intros Hres. apply Z.eqb_neq in Hres.
  unfold AllocateRaw. step_trace @trace_bind.
  rewrite Hres. step_trace @trace_bind. reflexivity.
Qed.

Lemma trace_DeallocateRaw drv ptr s :
  trace (DeallocateRaw drv ptr s) =
    at_lock (lock_ s)
      ([Driver cudaFreeAsync] ++
       (if drv =? cudaSuccess then []
        else [Activate; Driver cudaMemGetInfo; ReadStats; LogError]) ++
       [ReadSizeMap] ++
       (match size_map_ s !! ptr with
        | Some _ => []
        | None => [WriteSizeMap]
        end) ++
       [WriteStats; WriteSizeMap; VLog 10]).
Proof.
  unfold DeallocateRaw, size_map_subscript. step_trace @trace_bind.
  destruct (drv =? cudaSuccess); step_trace @trace_bind;
    destruct (size_map_ s !! ptr) as [v|] eqn:E; step_trace @trace_bind;
    reflexivity.
Qed.

Lemma trace_ClearStats s :
  trace (ClearStats s) =
    [mkEvent Acquire (lock_ s); mkEvent WriteStats true;
     mkEvent WriteStats true; mkEvent WriteStats true;
     mkEvent Release true].
Proof. reflexivity. Qed.

Lemma trace_GetStats s :
  trace (GetStats s) =
    [mkEvent Acquire (lock_ s); mkEvent ReadStats true; mkEvent Release true].
Proof. reflexivity. Qed.

Section SumSizes.

Implicit Types (m : gmap Z Z) (p v : Z).

Lemma sum_sizes_empty : sum_sizes ∅ = 0.
Proof. apply map_fold_empty. Qed.

Lemma sum_sizes_insert_fresh m p v :
  m !! p = None -> sum_sizes (<[p := v]> m) = v + sum_sizes m.
Proof.
  intros Hp. unfold sum_sizes.
  apply (map_fold_insert_L (fun _ v acc => v + acc)); [|exact Hp].
  intros; lia.
Qed.

Lemma sum_sizes_delete m p v :
  m !! p = Some v -> sum_sizes m = v + sum_sizes (delete p m).
Proof.
  intros Hp. unfold sum_sizes.
  apply (map_fold_delete_L (fun _ v acc => v + acc)); [|exact Hp].
  intros; lia.
Qed.

Lemma sum_sizes_insert m p v :
  sum_sizes (<[p := v]> m) = v + sum_sizes m - default 0 (m !! p).
Proof.
  destruct (m !! p) as [w|] eqn:Hp; cbn.
  - rewrite <- insert_delete_eq.
    rewrite sum_sizes_insert_fresh by apply lookup_delete_eq.
    rewrite (sum_sizes_delete m p w Hp). lia.
  - rewrite sum_sizes_insert_fresh by exact Hp. lia.
Qed.

Lemma sum_sizes_nonneg m : sizes_typed m -> 0 <= sum_sizes m.
Proof.
  induction m as [|p v m Hp IH] using map_ind; intros Hm.
  - rewrite sum_sizes_empty. lia.
  - rewrite sum_sizes_insert_fresh by exact Hp.
    apply map_Forall_insert in Hm as [Hv Hm]; [|exact Hp].
    specialize (IH Hm). unfold is_size_t in Hv. lia.
Qed.

Lemma sizes_typed_delete m p : sizes_typed m -> sizes_typed (delete p m).
Proof. apply map_Forall_delete. Qed.

Lemma sizes_typed_insert m p v :
  is_size_t v -> sizes_typed m -> sizes_typed (<[p := v]> m).
Proof. intros Hv Hm. now apply map_Forall_insert_2. Qed.

Lemma sum_sizes_lookup_le m p v :
  sizes_typed m -> m !! p = Some v -> 0 <= v <= sum_sizes m.
Proof.
  intros Hm Hp. rewrite (sum_sizes_delete m p v Hp).
  pose proof (sum_sizes_nonneg _ (sizes_typed_delete m p Hm)).
  pose proof (Hm p v Hp) as Hv. unfold is_size_t in Hv. lia.
Qed.

End SumSizes.

(** ** Construction *)

Lemma construct_final env platform_gpu_id pool_size reserve_memory :
  result (GPUcudaMallocAsyncAllocator_new env platform_gpu_id pool_size
            reserve_memory) = Normal tt ->
  final (GPUcudaMallocAsyncAllocator_new env platform_gpu_id pool_size
           reserve_memory) =
    mkAllocator (set_bytes_limit (Some (to_int64 pool_size))
                   AllocatorStats_default) ∅ false.
Proof.
  unfold GPUcudaMallocAsyncAllocator_new.
  rewrite result_effect, final_effect.
  unfold construct.
  destruct env as [ef e0 sup e1 e2 e3 det [pres prv] pfree].
  cbn [executor_found executor0_found cuda_malloc_async_supported
       stream_create_err default_pool_err set_threshold_err
       deterministic_ops_env prewarm_alloc prewarm_free].
  run_effect; try discriminate; intros _; try reflexivity.
  all: cbn; rewrite ?lookup_insert_eq, ?delete_insert_eq, ?delete_empty; cbn;
    rewrite ?sub_assign_add_assign; reflexivity.
Qed.

(** ** The state after a call *)

Section Exec.

Variable s : GPUcudaMallocAsyncAllocator.

Lemma exec_AllocateRaw drv alignment num_bytes :
  exec (CallAllocateRaw drv alignment num_bytes) s =
    if fst drv =? cudaSuccess
    then mkAllocator (stats_after_alloc num_bytes (stats_ s))
                     (<[snd drv := num_bytes]> (size_map_ s)) (lock_ s)
    else s.
Proof.
  cbn [exec]. rewrite final_effect, effect_AllocateRaw.
  now destruct (fst drv =? cudaSuccess).
Qed.

Lemma exec_DeallocateRaw drv ptr :
  exec (CallDeallocateRaw drv ptr) s =
    mkAllocator
      (set_bytes_in_use
         (sub_assign (bytes_in_use (stats_ s))
                     (default 0 (size_map_ s !! ptr))) (stats_ s))
      (delete ptr (size_map_ s)) (lock_ s).
Proof. cbn [exec]. now rewrite final_effect, effect_DeallocateRaw. Qed.

Lemma exec_ClearStats :
  exec CallClearStats s =
    mkAllocator
      (mkStats 0 (bytes_in_use (stats_ s)) (bytes_in_use (stats_ s)) 0
               (bytes_limit (stats_ s)))
      (size_map_ s) false.
Proof. reflexivity. Qed.

Lemma exec_GetStats :
  exec CallGetStats s = mkAllocator (stats_ s) (size_map_ s) false.
Proof. reflexivity. Qed.

End Exec.

(** ** The bookkeeping invariant *)

Section Invariant.

Implicit Types (s : GPUcudaMallocAsyncAllocator) (c : call).

Lemma int64_max_eq : int64_max = 9223372036854775807.
Proof. reflexivity. Qed.

Lemma int64_min_eq : int64_min = -9223372036854775808.
Proof. reflexivity. Qed.

(** In an accounted state the size recorded for an address can be taken
    off [bytes_in_use] without leaving the [int64] range. *)
Lemma accounted_recorded_size s ptr :
  accounted s ->
  0 <= default 0 (size_map_ s !! ptr) <= bytes_in_use (stats_ s).
Proof.
  intros (Hc & Hm & Hsum). rewrite Hsum.
  destruct (size_map_ s !! ptr) as [v|] eqn:E; cbn.
  - now apply (sum_sizes_lookup_le _ ptr).
  - pose proof (sum_sizes_nonneg _ Hm). lia.
Qed.

Lemma accounted_after_alloc s rv num_bytes :
  accounted s ->
  is_size_t num_bytes ->
  default 0 (size_map_ s !! rv) = 0 ->
  num_allocs (stats_ s) < int64_max ->
  bytes_in_use (stats_ s) + num_bytes <= int64_max ->
  accounted (mkAllocator (stats_after_alloc num_bytes (stats_ s))
                         (<[rv := num_bytes]> (size_map_ s)) (lock_ s)).
Proof.
  intros (Hc & Hm & Hsum) Hn Hrv Hallocs Hbytes.
  destruct Hc as (Ha & Hb & Hp & Hl).
  unfold is_size_t in Hn.
  assert (Hadd : add_assign (bytes_in_use (stats_ s)) num_bytes =
                 bytes_in_use (stats_ s) + num_bytes).
  { apply add_assign_exact. unfold is_int64. rewrite int64_min_eq. lia. }
  unfold accounted, counters_in_range, stats_after_alloc. cbn.
  rewrite Hadd, pre_incr_exact, max_size_t_exact; try lia.
  - split_and!; try lia.
    + now apply sizes_typed_insert.
    + rewrite sum_sizes_insert, Hrv. lia.
  - unfold is_int64. rewrite int64_min_eq. lia.
Qed.

Lemma accounted_after_dealloc s ptr :
  accounted s ->
  accounted
    (mkAllocator
       (set_bytes_in_use
          (sub_assign (bytes_in_use (stats_ s))
                      (default 0 (size_map_ s !! ptr))) (stats_ s))
       (delete ptr (size_map_ s)) (lock_ s)).
Proof.
  intros Hacc. pose proof (accounted_recorded_size s ptr Hacc) as Hsz.
  destruct Hacc as (Hc & Hm & Hsum).
  destruct Hc as (Ha & Hb & Hp & Hl).
  unfold accounted, counters_in_range. cbn.
  rewrite sub_assign_exact
    by (unfold is_int64; rewrite int64_min_eq; lia).
  split_and!; try lia.
  - now apply sizes_typed_delete.
  - destruct (size_map_ s !! ptr) as [v|] eqn:E; cbn.
    + rewrite (sum_sizes_delete _ ptr v E) in Hsum. lia.
    + rewrite delete_id by exact E. lia.
Qed.

Lemma exec_accounted s c :
  accounted s -> admissible s c -> accounted (exec c s).
Proof.
  intros Hacc Hadm. destruct c as [drv alignment num_bytes|drv ptr| |].
  - rewrite exec_AllocateRaw. cbn [admissible] in Hadm.
    destruct (Z.eqb_spec (fst drv) cudaSuccess) as [E|_]; [|exact Hacc].
    destruct (Hadm E) as (Hn & Hrv & Hallocs & Hbytes).
    now apply accounted_after_alloc.
  - rewrite exec_DeallocateRaw. now apply accounted_after_dealloc.
  - exact Hacc.
  - rewrite exec_ClearStats. destruct Hacc as ((Ha & Hb & Hp & Hl) & Hm & Hsum).
    unfold accounted, counters_in_range. cbn.
    rewrite int64_max_eq in *. split_and!; try lia; assumption.
Qed.

Lemma exec_all_accounted cs s :
  accounted s -> admissible_run cs s -> accounted (exec_all cs s).
Proof.
  revert s. induction cs as [|c cs IH]; intros s Hacc Hadm; [exact Hacc|].
  destruct Hadm as [Hc Hcs]. cbn [exec_all fold_left].
  apply IH; [now apply exec_accounted | exact Hcs].
Qed.

Lemma fresh_is_accounted pool_size :
  accounted (mkAllocator (set_bytes_limit (Some (to_int64 pool_size))
                            AllocatorStats_default) ∅ false).
Proof.
  unfold accounted, counters_in_range. cbn. rewrite int64_max_eq.
  split_and!; try lia.
  - apply map_Forall_empty.
  - now rewrite sum_sizes_empty.
Qed.

End Invariant.

(** ** Size queries and the calls that keep an address *)

Lemma RequestedSize_run ptr s :
  result (RequestedSize ptr s) =
    (if ptr =? nullptr then Fatal
     else match size_map_ s !! ptr with
          | Some v => Normal v
          | None => OutOfRange
          end) /\
  final (RequestedSize ptr s) = s.
Proof.
  rewrite result_effect, final_effect, effect_RequestedSize.
  destruct (ptr =? nullptr); [now split|].
  now destruct (size_map_ s !! ptr).
Qed.



(** * The claims *)



(** Construction, when it returns, leaves an accounted instance whose peak
    covers the bytes in use. *)
Lemma construct_accounted env platform_gpu_id pool_size reserve_memory :
  result (GPUcudaMallocAsyncAllocator_new env platform_gpu_id pool_size
            reserve_memory) = Normal tt ->
  accounted (final (GPUcudaMallocAsyncAllocator_new env platform_gpu_id
                      pool_size reserve_memory)) /\
  peak_covers (final (GPUcudaMallocAsyncAllocator_new env platform_gpu_id
                        pool_size reserve_memory)).
Proof.
  intros Hres. rewrite (construct_final _ _ _ _ Hres). split.
  - apply fresh_is_accounted.
  - unfold peak_covers. cbn. lia.
Qed.

(** C2. [bytes_in_use] equals the sum of the sizes in the size-tracking map:
    the equation, with the typing of the members, is preserved by every
    call (a successful [AllocateRaw], a [DeallocateRaw] of a tracked or of
    an untracked address, [ClearStats], [GetStats], a refused [AllocateRaw])
    and so holds after any sequence of calls made on an instance where it
    holds, such as a newly constructed one.  The driver hands out addresses
    that are not live and the counters do not overflow ([admissible]). *)
Theorem bytes_in_use_is_sum_of_sizes s cs :
  accounted s ->
  admissible_run cs s ->
  accounted (exec_all cs s) /\
  bytes_in_use (stats_ (exec_all cs s)) = sum_sizes (size_map_ (exec_all cs s)).
Proof.
  intros Hacc Hadm.
  pose proof (exec_all_accounted cs s Hacc Hadm) as H.
  split; [exact H | apply H].
Qed.

Lemma bytes_in_use_is_sum_of_sizes_witness :
  let s := final (GPUcudaMallocAsyncAllocator_new example_env 0 65536 true) in
  accounted s /\
  admissible_run example_calls s /\
  bytes_in_use (stats_ (exec_all example_calls s)) =
    sum_sizes (size_map_ (exec_all example_calls s)).
Proof.
  assert (Hacc : accounted (final (GPUcudaMallocAsyncAllocator_new
                                     example_env 0 65536 true))).
  { compute_done. }
  assert (Hadm : admissible_run example_calls
                   (final (GPUcudaMallocAsyncAllocator_new example_env 0
                             65536 true))).
  { compute_done. }
  cbv zeta. split_and!; [exact Hacc | exact Hadm |].
  exact (proj2 (bytes_in_use_is_sum_of_sizes _ _ Hacc Hadm)).
Defined.

(** C3. [DeallocateRaw p], for [p] tracked with size [sz], removes [p] from
    the size-tracking map and takes exactly [sz] off [bytes_in_use],
    whatever status [drv] the driver's [cudaFreeAsync] returns.  The
    difference is an [int64] value, as it is in every accounted state
    ([accounted_recorded_size]). *)
Theorem DeallocateRaw_tracked s drv p sz :
  size_map_ s !! p = Some sz ->
  is_int64 (bytes_in_use (stats_ s) - sz) ->
  let r := DeallocateRaw drv p s in
  result r = Normal tt /\
  size_map_ (final r) = delete p (size_map_ s) /\
  size_map_ (final r) !! p = None /\
  bytes_in_use (stats_ (final r)) = bytes_in_use (stats_ s) - sz.
Proof.
  intros Hp Hfit r. subst r.
  destruct (DeallocateRaw_final s drv p) as [-> ->]. cbn. rewrite Hp. cbn.
  split_and!.
  - reflexivity.
  - reflexivity.
  - apply lookup_delete_eq.
  - now apply sub_assign_exact.
Qed.

Lemma DeallocateRaw_tracked_witness :
  let s := final (AllocateRaw (cudaSuccess, 4096) 0 1024 fresh_instance) in
  size_map_ s !! 4096 = Some 1024 /\
  (let r := DeallocateRaw cudaErrorNotSupported 4096 s in
   size_map_ (final r) !! 4096 = None /\
   bytes_in_use (stats_ (final r)) = 0) /\
  (let r := DeallocateRaw cudaSuccess 4096 s in
   size_map_ (final r) !! 4096 = None /\
   bytes_in_use (stats_ (final r)) = 0).
Proof.
  assert (Hp : size_map_ (final (AllocateRaw (cudaSuccess, 4096) 0 1024
                 fresh_instance)) !! 4096 = Some 1024) by reflexivity.
  assert (Hfit : is_int64 (bytes_in_use (stats_ (final (AllocateRaw
                   (cudaSuccess, 4096) 0 1024 fresh_instance))) - 1024)).
  { compute_done. }
  cbv zeta. split_and!.
  - exact Hp.
  - apply (DeallocateRaw_tracked _ cudaErrorNotSupported 4096 1024 Hp Hfit).
  - apply (DeallocateRaw_tracked _ cudaErrorNotSupported 4096 1024 Hp Hfit).
  - apply (DeallocateRaw_tracked _ cudaSuccess 4096 1024 Hp Hfit).
  - apply (DeallocateRaw_tracked _ cudaSuccess 4096 1024 Hp Hfit).
Defined.

(** C4. A call of [AllocateRaw] whose pool allocation the driver refuses
    returns the null address, does not abort or throw, and leaves the
    statistics and the size-tracking map as they were. *)
Theorem AllocateRaw_refused_unchanged s res rv alignment num_bytes :
  res <> cudaSuccess ->
  let r := AllocateRaw (res, rv) alignment num_bytes s in
  result r = Normal nullptr /\
  final r = s /\
  stats_ (final r) = stats_ s /\
  size_map_ (final r) = size_map_ s.
Proof.
  intros Hres r. subst r.
  destruct (AllocateRaw_refused s res rv alignment num_bytes Hres) as [-> ->].
  now split_and!.
Qed.

Lemma AllocateRaw_refused_unchanged_witness :
  let s := final (AllocateRaw (cudaSuccess, 4096) 0 1024 fresh_instance) in
  let r := AllocateRaw (cudaErrorMemoryAllocation, 12345) 0 65536 s in
  cudaErrorMemoryAllocation <> cudaSuccess /\
  result r = Normal nullptr /\ final r = s.
Proof.
  assert (Hres : cudaErrorMemoryAllocation <> cudaSuccess) by discriminate.
  cbv zeta. split_and!; [exact Hres | ..];
    apply (AllocateRaw_refused_unchanged _ _ 12345 0 65536 Hres).
Defined.

(** C5. [ClearStats] sets [num_allocs] and [largest_alloc_size] to zero and
    [peak_bytes_in_use] to the current [bytes_in_use]; [bytes_in_use],
    [bytes_limit] and the size-tracking map are left as they were. *)
Theorem ClearStats_resets s :
  let r := ClearStats s in
  result r = Normal tt /\
  num_allocs (stats_ (final r)) = 0 /\
  largest_alloc_size (stats_ (final r)) = 0 /\
  peak_bytes_in_use (stats_ (final r)) = bytes_in_use (stats_ s) /\
  bytes_in_use (stats_ (final r)) = bytes_in_use (stats_ s) /\
  bytes_limit (stats_ (final r)) = bytes_limit (stats_ s) /\
  size_map_ (final r) = size_map_ s.
Proof.
  intros r. subst r.
  rewrite result_effect, final_effect, effect_ClearStats.
  cbn [fst snd stats_ size_map_ num_allocs bytes_in_use peak_bytes_in_use
       largest_alloc_size bytes_limit].
  now split_and!.
Qed.

(** One call keeps the peak above the bytes in use; only [ClearStats]
    lowers the peak. *)
Lemma exec_peak s c :
  accounted s ->
  peak_covers s ->
  peak_covers (exec c s) /\
  match c with
  | CallClearStats =>
      peak_bytes_in_use (stats_ (exec c s)) = bytes_in_use (stats_ s) /\
      peak_bytes_in_use (stats_ (exec c s)) <= peak_bytes_in_use (stats_ s)
  | _ => peak_bytes_in_use (stats_ s) <= peak_bytes_in_use (stats_ (exec c s))
  end.
Proof.
  intros Hacc Hpeak. unfold peak_covers in *.
  destruct c as [drv alignment num_bytes|drv ptr| |].
  - rewrite exec_AllocateRaw.
    destruct (fst drv =? cudaSuccess); cbn; lia.
  - rewrite exec_DeallocateRaw. cbn.
    pose proof (accounted_recorded_size s ptr Hacc) as Hsz.
    destruct Hacc as ((Ha & Hb & Hp & Hl) & _).
    rewrite sub_assign_exact
      by (unfold is_int64; rewrite int64_min_eq; lia).
    lia.
  - cbn. lia.
  - cbn. lia.
Qed.

Lemma exec_all_peak cs s :
  accounted s -> peak_covers s -> admissible_run cs s ->
  accounted (exec_all cs s) /\ peak_covers (exec_all cs s).
Proof.
  revert s. induction cs as [|c cs IH]; intros s Hacc Hpeak Hadm;
    [now split|].
  destruct Hadm as [Hc Hcs]. cbn [exec_all fold_left].
  apply IH; [now apply exec_accounted | now apply exec_peak | exact Hcs].
Qed.

(** C6. In an accounted state whose peak covers the bytes in use, and after
    any admissible calls [cs], one more call [c] leaves
    [peak_bytes_in_use >= bytes_in_use]; [AllocateRaw], [DeallocateRaw] and
    [GetStats] do not lower [peak_bytes_in_use], and [ClearStats] sets it
    to the current [bytes_in_use]. *)
Theorem peak_bytes_in_use_invariant s cs c :
  accounted s ->
  peak_covers s ->
  admissible_run cs s ->
  let s1 := exec_all cs s in
  let s2 := exec c s1 in
  peak_covers s1 /\
  peak_covers s2 /\
  match c with
  | CallClearStats =>
      peak_bytes_in_use (stats_ s2) = bytes_in_use (stats_ s1) /\
      peak_bytes_in_use (stats_ s2) <= peak_bytes_in_use (stats_ s1)
  | _ => peak_bytes_in_use (stats_ s1) <= peak_bytes_in_use (stats_ s2)
  end.
Proof.
  intros Hacc Hpeak Hadm s1 s2.
  destruct (exec_all_peak cs s Hacc Hpeak Hadm) as [Hacc1 Hpeak1].
  split; [exact Hpeak1|]. now apply exec_peak.
Qed.

Lemma peak_bytes_in_use_invariant_witness :
  let s := final (GPUcudaMallocAsyncAllocator_new example_env 0 65536 true) in
  let s1 := exec_all example_calls s in
  accounted s /\ peak_covers s /\ admissible_run example_calls s /\
  peak_covers (exec (CallDeallocateRaw cudaSuccess 8192) s1) /\
  peak_bytes_in_use (stats_ s1) <=
    peak_bytes_in_use (stats_ (exec (CallDeallocateRaw cudaSuccess 8192) s1)).
Proof.
  assert (Hacc : accounted (final (GPUcudaMallocAsyncAllocator_new
                                     example_env 0 65536 true))).
  { compute_done. }
  assert (Hpeak : peak_covers (final (GPUcudaMallocAsyncAllocator_new
                                        example_env 0 65536 true))).
  { compute_done. }
  assert (Hadm : admissible_run example_calls
                   (final (GPUcudaMallocAsyncAllocator_new example_env 0
                             65536 true))).
  { compute_done. }
  pose proof (peak_bytes_in_use_invariant _ _
                (CallDeallocateRaw cudaSuccess 8192) Hacc Hpeak Hadm)
    as (_ & H2 & H3).
  cbv zeta.
  split_and!; [exact Hacc | exact Hpeak | exact Hadm | exact H2 | exact H3].
Defined.

(** C7 (as stated, refuted).  The address 4096 is not in the size-tracking
    map of a new instance, and neither size query aborts on it:
    [size_map_.at] throws [std::out_of_range]. *)
Lemma size_query_untracked_not_fatal :
  size_map_ fresh_instance !! 4096 = None /\
  result (RequestedSize 4096 fresh_instance) = OutOfRange /\
  result (AllocatedSize 4096 fresh_instance) = OutOfRange /\
  result (RequestedSize 4096 fresh_instance) <> Fatal /\
  result (AllocatedSize 4096 fresh_instance) <> Fatal.
Proof. split_and!; try reflexivity; discriminate. Qed.

(** C7 (amended).  For an address [p] that is not in the size-tracking map,
    [RequestedSize p] and [AllocatedSize p] never return a size: they
    abort on the [CHECK] when [p] is null, and otherwise end with the
    [std::out_of_range] exception thrown by [size_map_.at]. *)
Theorem size_query_untracked s p :
  size_map_ s !! p = None ->
  result (RequestedSize p s) = (if p =? nullptr then Fatal else OutOfRange) /\
  result (AllocatedSize p s) = (if p =? nullptr then Fatal else OutOfRange) /\
  (forall v, result (RequestedSize p s) <> Normal v) /\
  (forall v, result (AllocatedSize p s) <> Normal v).
Proof.
  intros Hp. change (AllocatedSize p s) with (RequestedSize p s).
  rewrite (proj1 (RequestedSize_run p s)), Hp.
  destruct (p =? nullptr); split_and!; try reflexivity; discriminate.
Qed.

Lemma size_query_untracked_witness :
  size_map_ fresh_instance !! 4096 = None /\
  size_map_ fresh_instance !! nullptr = None /\
  result (RequestedSize 4096 fresh_instance) = OutOfRange /\
  result (AllocatedSize nullptr fresh_instance) = Fatal.
Proof.
  assert (H1 : size_map_ fresh_instance !! 4096 = None) by reflexivity.
  assert (H2 : size_map_ fresh_instance !! nullptr = None) by reflexivity.
  split_and!; [exact H1 | exact H2 | |].
  - exact (proj1 (size_query_untracked fresh_instance 4096 H1)).
  - exact (proj1 (proj2 (size_query_untracked fresh_instance nullptr H2))).
Defined.

(** C8 (the code departs from the claim).  Called with the mutex free,
    [AllocateRaw] and [DeallocateRaw] never take [lock_]: every write they
    make to [stats_] and [size_map_] happens with the mutex not held,
    while [ClearStats] makes its writes with the mutex held.  No driver
    call is made with the mutex held. *)
Theorem bookkeeping_writes_without_lock s rv alignment num_bytes drv ptr :
  lock_ s = false ->
  let alloc := trace (AllocateRaw (cudaSuccess, rv) alignment num_bytes s) in
  let dealloc := trace (DeallocateRaw drv ptr s) in
  acquires alloc = false /\ writes_locked alloc = false /\
  acquires dealloc = false /\ writes_locked dealloc = false /\
  driver_unlocked alloc = true /\ driver_unlocked dealloc = true /\
  acquires (trace (ClearStats s)) = true /\
  writes_locked (trace (ClearStats s)) = true /\
  acquires (trace (GetStats s)) = true.
Proof.
  intros Hlock alloc dealloc. subst alloc dealloc.
  rewrite trace_AllocateRaw_granted, trace_DeallocateRaw, trace_ClearStats,
    trace_GetStats, Hlock.
  destruct (drv =? cudaSuccess), (size_map_ s !! ptr); now split_and!.
Qed.

Lemma bookkeeping_writes_without_lock_witness :
  lock_ fresh_instance = false /\
  writes_locked
    (trace (AllocateRaw (cudaSuccess, 4096) 0 1024 fresh_instance)) = false /\
  writes_locked
    (trace (DeallocateRaw cudaSuccess 4096 fresh_instance)) = false.
Proof.
  assert (Hlock : lock_ fresh_instance = false) by reflexivity.
  pose proof (bookkeeping_writes_without_lock fresh_instance 4096 0 1024
                cudaSuccess 4096 Hlock) as (_ & H1 & _ & H2 & _).
  split_and!; [exact Hlock | exact H1 | exact H2].
Defined.

(** C10. [DeallocateRaw p], for [p] not in the size-tracking map (the null
    address of a refused pre-fill included), changes nothing: the
    subscript inserts a zero size for [p], zero is taken off
    [bytes_in_use], and the inserted entry is erased. *)
Theorem DeallocateRaw_untracked s drv p :
  size_map_ s !! p = None ->
  is_int64 (bytes_in_use (stats_ s)) ->
  let r := DeallocateRaw drv p s in
  let sub := size_map_subscript p s in
  result r = Normal tt /\
  final r = s /\
  stats_ (final r) = stats_ s /\
  size_map_ (final r) = size_map_ s /\
  result sub = Normal 0 /\
  size_map_ (final sub) = <[p := 0]> (size_map_ s) /\
  delete p (<[p := 0]> (size_map_ s)) = size_map_ s.
Proof.
  intros Hp Hb r sub. subst r sub.
  destruct (DeallocateRaw_final s drv p) as [-> ->].
  rewrite result_effect, final_effect, effect_size_map_subscript, Hp.
  cbn [fst snd default with_size_map size_map_ stats_ lock_].
  assert (Hsub : sub_assign (bytes_in_use (stats_ s)) 0 =
                 bytes_in_use (stats_ s)).
  { rewrite sub_assign_exact; rewrite Z.sub_0_r; [reflexivity | exact Hb]. }
  rewrite Hsub, delete_insert_id, delete_id by exact Hp.
  destruct s as [[n b pk l lim] m lk]. now split_and!.
Qed.

Lemma DeallocateRaw_untracked_witness :
  let s := final (AllocateRaw (cudaSuccess, 4096) 0 1024 fresh_instance) in
  size_map_ s !! nullptr = None /\
  is_int64 (bytes_in_use (stats_ s)) /\
  final (DeallocateRaw cudaErrorNotSupported nullptr s) = s /\
  size_map_ (final (DeallocateRaw cudaErrorNotSupported nullptr s)) !! 4096 =
    Some 1024.
Proof.
  assert (Hp : size_map_ (final (AllocateRaw (cudaSuccess, 4096) 0 1024
                 fresh_instance)) !! nullptr = None) by reflexivity.
  assert (Hb : is_int64 (bytes_in_use (stats_ (final (AllocateRaw
                 (cudaSuccess, 4096) 0 1024 fresh_instance))))).
  { compute_done. }
  pose proof (DeallocateRaw_untracked _ cudaErrorNotSupported nullptr Hp Hb)
    as (_ & H1 & _ & H2 & _).
  cbv zeta. split_and!; [exact Hp | exact Hb | exact H1 |].
  rewrite H2. reflexivity.
Defined.

(** Refused allocations leave the instance as it is. *)
Lemma refused_allocations_unchanged cs s :
  Forall refused_allocation cs -> exec_all cs s = s.
Proof.
  intros Hcs. induction Hcs as [|c cs Hc _ IH]; [reflexivity|].
  cbn [exec_all fold_left]. fold (exec_all cs (exec c s)).
  destruct c as [drv alignment num_bytes| | |]; try contradiction.
  cbn [refused_allocation] in Hc. apply Z.eqb_neq in Hc.
  rewrite exec_AllocateRaw, Hc. exact IH.
Qed.

(** C9 (as stated, refuted).  On a device that reports no support for memory
    pools and refuses every pool allocation, construction returns and a
    later [AllocateRaw] returns the null address, but the statistics record
    is not all-zero: [bytes_limit] holds the pool size.  The instance also
    keeps no record of the missing support: [AllocateRaw] asks the driver
    all the same, and returns the address of a pool allocation that the
    driver grants. *)
Lemma unsupported_device_not_all_zero :
  let a := GPUcudaMallocAsyncAllocator_new unsupported_env 0 1024 false in
  let r := AllocateRaw (cudaErrorNotSupported, 0) 0 512 (final a) in
  let g := AllocateRaw (cudaSuccess, 4096) 0 512 (final a) in
  cuda_malloc_async_supported unsupported_env = 0 /\
  result a = Normal tt /\
  result r = Normal nullptr /\
  stats_ (final r) <> AllocatorStats_default /\
  bytes_limit (stats_ (final r)) = Some 1024 /\
  result g = Normal 4096 /\
  result g <> Normal nullptr /\
  num_allocs (stats_ (final g)) = 1.
Proof. split_and!; try reflexivity; discriminate. Qed.

(** C9 (amended).  When the device is reported as not supporting memory
    pools, construction only logs it.  After construction and any number
    of [AllocateRaw] calls whose pool allocation the driver refuses, one
    more such call returns the null address without aborting, the four
    counters are zero, [bytes_limit] holds the pool size and the
    size-tracking map is empty. *)
Theorem unsupported_device_allocations env platform_gpu_id pool_size
    reserve_memory cs drv alignment num_bytes :
  cuda_malloc_async_supported env = 0 ->
  result (GPUcudaMallocAsyncAllocator_new env platform_gpu_id pool_size
            reserve_memory) = Normal tt ->
  Forall refused_allocation cs ->
  fst drv <> cudaSuccess ->
  let s := exec_all cs (final (GPUcudaMallocAsyncAllocator_new env
                                 platform_gpu_id pool_size reserve_memory)) in
  result (AllocateRaw drv alignment num_bytes s) = Normal nullptr /\
  final (AllocateRaw drv alignment num_bytes s) = s /\
  num_allocs (stats_ s) = 0 /\
  bytes_in_use (stats_ s) = 0 /\
  peak_bytes_in_use (stats_ s) = 0 /\
  largest_alloc_size (stats_ s) = 0 /\
  bytes_limit (stats_ s) = Some (to_int64 pool_size) /\
  size_map_ s = ∅.
Proof.
  intros _ Hres Hcs Hdrv s. subst s.
  rewrite (refused_allocations_unchanged cs _ Hcs).
  rewrite (construct_final _ _ _ _ Hres).
  destruct drv as [res rv]. cbn [fst] in Hdrv.
  destruct (AllocateRaw_refused
              (mkAllocator (set_bytes_limit (Some (to_int64 pool_size))
                              AllocatorStats_default) ∅ false)
              res rv alignment num_bytes Hdrv) as [-> ->].
  now split_and!.
Qed.

Lemma unsupported_device_allocations_witness :
  let cs := [CallAllocateRaw (cudaErrorNotSupported, 0) 0 1024;
             CallAllocateRaw (cudaErrorMemoryAllocation, 0) 64 4096] in
  let s := exec_all cs
             (final (GPUcudaMallocAsyncAllocator_new unsupported_env 1 65536
                       true)) in
  cuda_malloc_async_supported unsupported_env = 0 /\
  Forall refused_allocation cs /\
  result (AllocateRaw (cudaErrorNotSupported, 0) 0 512 s) = Normal nullptr /\
  num_allocs (stats_ s) = 0 /\
  bytes_limit (stats_ s) = Some 65536.
Proof.
  assert (Hsup : cuda_malloc_async_supported unsupported_env = 0)
    by reflexivity.
  assert (Hres : result (GPUcudaMallocAsyncAllocator_new unsupported_env 1
                           65536 true) = Normal tt) by reflexivity.
  assert (Hcs : Forall refused_allocation
                  [CallAllocateRaw (cudaErrorNotSupported, 0) 0 1024;
                   CallAllocateRaw (cudaErrorMemoryAllocation, 0) 64 4096]).
  { repeat constructor; cbn; discriminate. }
  assert (Hdrv : fst (cudaErrorNotSupported, 0) <> cudaSuccess)
    by discriminate.
  pose proof (unsupported_device_allocations unsupported_env 1 65536 true _
                (cudaErrorNotSupported, 0) 0 512 Hsup Hres Hcs Hdrv)
    as (H1 & _ & H2 & _ & _ & _ & H3 & _).
  cbv zeta. split_and!; [exact Hsup | exact Hcs | exact H1 | exact H2 |].
  rewrite H3. reflexivity.
Defined.

(** ** The scenario of the specification

    Allocate 1024 bytes, allocate 4096 more, free the first address, clear
    the statistics. *)
Example scenario_statistics :
  let s1 := exec (CallAllocateRaw (cudaSuccess, 4096) 0 1024) fresh_instance in
  let s2 := exec (CallAllocateRaw (cudaSuccess, 8192) 0 4096) s1 in
  let s3 := exec (CallDeallocateRaw cudaSuccess 4096) s2 in
  let s4 := exec CallClearStats s3 in
  stats_ s1 = mkStats 1 1024 1024 1024 None /\
  stats_ s2 = mkStats 2 5120 5120 4096 None /\
  stats_ s3 = mkStats 2 4096 5120 4096 None /\
  stats_ s4 = mkStats 0 4096 4096 0 None /\
  size_map_ s4 !! 8192 = Some 4096 /\
  size_map_ s4 !! 4096 = None.
Proof. now split_and!. Qed.

(** * Further properties of the code *)

(** ** Traces of the primitives *)

Lemma trace_ret {A} (a : A) s : trace (ret a s) = [].
Proof. reflexivity. Qed.

Lemma trace_emit a s : trace (emit a s) = [mkEvent a (lock_ s)].
Proof. reflexivity. Qed.

Lemma trace_driver {A} f (ans : A) s :
  trace (driver f ans s) = [mkEvent (Driver f) (lock_ s)].
Proof. reflexivity. Qed.

Lemma trace_modify_stats f s :
  trace (modify_stats f s) = [mkEvent WriteStats (lock_ s)].
Proof. reflexivity. Qed.

Lemma trace_ValueOrDie found s : trace (ValueOrDie found s) = [].
Proof. now destruct found. Qed.

Lemma trace_TF_CHECK_OK {A} (status : option A) s :
  trace (TF_CHECK_OK status s) = [].
Proof. now destruct status. Qed.

Lemma trace_log_if (c : bool) s :
  trace ((if c then emit LogError else ret tt) s) =
    if c then [mkEvent LogError (lock_ s)] else [].
Proof. now destruct c. Qed.

Lemma trace_AllocateRaw drv alignment num_bytes s :
  trace (AllocateRaw drv alignment num_bytes s) =
    at_lock (lock_ s)
      ([Activate; Driver cudaMallocFromPoolAsync] ++
       (if fst drv =? cudaSuccess
        then [WriteStats; WriteStats; WriteStats; WriteStats; WriteSizeMap;
              VLog 10]
        else [Driver cudaMemGetInfo; ReadStats; LogError])).
Proof.
  destruct drv as [res rv]. cbn [fst].
  destruct (Z.eqb_spec res cudaSuccess) as [->|Hres].
  - apply trace_AllocateRaw_granted.
  - now apply trace_AllocateRaw_refused.
Qed.

Lemma driver_calls_app t1 t2 :
  driver_calls (t1 ++ t2) = driver_calls t1 ++ driver_calls t2.
Proof. apply omap_app. Qed.

Lemma driver_calls_log (c : bool) l :
  driver_calls (if c then [mkEvent LogError l] else []) = [].
Proof. now destruct c. Qed.

Lemma errors_logged_app t1 t2 :
  errors_logged (t1 ++ t2) = (errors_logged t1 + errors_logged t2)%nat.
Proof.
  unfold errors_logged. now rewrite List.filter_app, length_app.
Qed.

Lemma errors_logged_log (c : bool) l :
  errors_logged (if c then [mkEvent LogError l] else []) =
    if c then 1%nat else 0%nat.
Proof. now destruct c. Qed.

Lemma errors_logged_log_negb (c : bool) l :
  errors_logged (if negb c then [mkEvent LogError l] else []) =
    if c then 0%nat else 1%nat.
Proof. now destruct c. Qed.

(** ** Construction *)

Lemma effect_construct env platform_gpu_id pool_size reserve_memory :
  effect (construct env platform_gpu_id pool_size reserve_memory)
         fresh_instance =
    if negb (executor_found env)
       || ((0 <? platform_gpu_id) && negb (executor0_found env))
    then (Fatal, fresh_instance)
    else (match deterministic_ops_env env with
          | Some _ => Normal tt
          | None => Fatal
          end,
          mkAllocator (set_bytes_limit (Some (to_int64 pool_size))
                         AllocatorStats_default) ∅ false).
Proof.
  unfold construct.
  destruct env as [ef e0 sup e1 e2 e3 det [pres prv] pfree].
  cbn [executor_found executor0_found cuda_malloc_async_supported
       stream_create_err default_pool_err set_threshold_err
       deterministic_ops_env prewarm_alloc prewarm_free].
  destruct ef, (0 <? platform_gpu_id), e0, det as [[|]|], reserve_memory;
    cbn [negb orb andb]; run_effect; try reflexivity.
  all: cbn; rewrite ?lookup_insert_eq, ?delete_insert_eq, ?delete_empty; cbn;
    rewrite ?sub_assign_add_assign; reflexivity.
Qed.

(** X1. Construction aborts exactly when an executor is missing or the
    environment variable cannot be read; no answer of the driver (missing
    pool support, a failing stream creation, pool query, threshold setting
    or pre-fill) makes it abort or throw. *)
Theorem construction_aborts_iff env platform_gpu_id pool_size reserve_memory :
  result (GPUcudaMallocAsyncAllocator_new env platform_gpu_id pool_size
            reserve_memory) =
    if ctor_aborts env platform_gpu_id then Fatal else Normal tt.
Proof.
  unfold GPUcudaMallocAsyncAllocator_new, ctor_aborts.
  rewrite result_effect, effect_construct.
  destruct (negb (executor_found env)
            || ((0 <? platform_gpu_id) && negb (executor0_found env)));
    [reflexivity|].
  now destruct (deterministic_ops_env env).
Qed.

(** X2. The pre-fill leaves no mark on the instance: with and without
    [reserve_memory], and whatever the driver answers to the pre-fill,
    construction ends the same way and in the same state, for every pool
    size (also one that does not fit an [int64]). *)
Theorem reserve_memory_invisible env env' platform_gpu_id pool_size :
  executor_found env' = executor_found env ->
  executor0_found env' = executor0_found env ->
  deterministic_ops_env env' = deterministic_ops_env env ->
  let a := GPUcudaMallocAsyncAllocator_new env platform_gpu_id pool_size true in
  let b := GPUcudaMallocAsyncAllocator_new env' platform_gpu_id pool_size
             false in
  result a = result b /\ final a = final b.
Proof.
  intros H1 H2 H3 a b. subst a b. unfold GPUcudaMallocAsyncAllocator_new.
  rewrite !result_effect, !final_effect, !effect_construct, H1, H2, H3.
  now split.
Qed.

Lemma reserve_memory_invisible_witness :
  executor_found unsupported_env = executor_found example_env /\
  final (GPUcudaMallocAsyncAllocator_new example_env 0 (2 ^ 64 - 1) true) =
  final (GPUcudaMallocAsyncAllocator_new unsupported_env 0 (2 ^ 64 - 1) false).
Proof.
  assert (H1 : executor_found unsupported_env = executor_found example_env)
    by reflexivity.
  assert (H2 : executor0_found unsupported_env = executor0_found example_env)
    by reflexivity.
  assert (H3 : deterministic_ops_env unsupported_env =
               deterministic_ops_env example_env) by reflexivity.
  split; [exact H1|].
  exact (proj2 (reserve_memory_invisible example_env unsupported_env 0
                  (2 ^ 64 - 1) H1 H2 H3)).
Defined.

Lemma trace_if {A} (c : bool) (m1 m2 : M A) s :
  trace ((if c then m1 else m2) s) = if c then trace (m1 s) else trace (m2 s).
Proof. now destruct c. Qed.

(** The block that touches device 0 before another device is set up. *)
Lemma effect_touch_device_0 (c found : bool) s :
  effect (if c
          then ValueOrDie found ;; emit Activate ;; driver cudaMalloc tt ;;
               driver cudaFree tt
          else ret tt) s =
    if c && negb found then (Fatal, s) else (Normal tt, s).
Proof. now destruct c, found. Qed.

Lemma trace_touch_device_0 (c found : bool) s :
  trace ((if c
          then ValueOrDie found ;; emit Activate ;; driver cudaMalloc tt ;;
               driver cudaFree tt
          else ret tt) s) =
    at_lock (lock_ s)
      (if c && found then [Activate; Driver cudaMalloc; Driver cudaFree]
       else []).
Proof. now destruct c, found. Qed.

(** The block that switches the reuse policies off. *)
Lemma effect_deterministic (d : bool) s :
  effect (if d
          then driver cudaMemPoolSetAttribute tt ;;
               driver cudaMemPoolSetAttribute tt
          else ret tt) s = (Normal tt, s).
Proof. now destruct d. Qed.

Lemma trace_deterministic (d : bool) s :
  trace ((if d
          then driver cudaMemPoolSetAttribute tt ;;
               driver cudaMemPoolSetAttribute tt
          else ret tt) s) =
    at_lock (lock_ s)
      (if d then [Driver cudaMemPoolSetAttribute;
                  Driver cudaMemPoolSetAttribute]
       else []).
Proof. now destruct d. Qed.

(** The driver calls and the error lines of a construction that returns. *)
Lemma construct_trace_summary env platform_gpu_id pool_size reserve_memory :
  ctor_aborts env platform_gpu_id = false ->
  let t := trace (GPUcudaMallocAsyncAllocator_new env platform_gpu_id
                    pool_size reserve_memory) in
  driver_calls t = construct_driver_calls env platform_gpu_id reserve_memory /\
  errors_logged t = construct_failures env reserve_memory.
Proof.
  unfold ctor_aborts, GPUcudaMallocAsyncAllocator_new, construct,
    construct_driver_calls, construct_failures, failed.
  destruct env as [ef e0 sup e1 e2 e3 det [pres prv] pfree].
  cbn [executor_found executor0_found cuda_malloc_async_supported
       stream_create_err default_pool_err set_threshold_err
       deterministic_ops_env prewarm_alloc prewarm_free fst].
  destruct ef; [|discriminate]. destruct det as [d|]; [|now rewrite orb_true_r].
  cbn [negb orb]. rewrite orb_false_r. intros E0.
  remember (trace _) as t eqn:Ht.
  repeat first
    [ progress rewrite ?trace_bind, ?trace_touch_device_0,
        ?effect_touch_device_0, ?trace_deterministic, ?effect_deterministic,
        ?trace_ret, ?trace_emit, ?trace_driver,
        ?trace_modify_stats, ?trace_ValueOrDie, ?trace_TF_CHECK_OK,
        ?trace_log_if, ?trace_if, ?trace_AllocateRaw, ?trace_DeallocateRaw,
        ?trace_ClearStats, ?E0 in Ht
    | progress (autorewrite with effect in Ht)
    | progress cbv beta iota zeta in Ht
    | progress cbn [fst snd negb size_map_ stats_ lock_ with_stats
                    fresh_instance] in Ht ].
  destruct reserve_memory;
    [destruct (pres =? cudaSuccess) eqn:Epres|];
    repeat first
    [ progress rewrite ?trace_bind, ?trace_ret, ?trace_emit,
        ?trace_DeallocateRaw, ?trace_ClearStats,
        ?lookup_insert_eq, ?lookup_empty in Ht
    | progress (autorewrite with effect in Ht)
    | progress cbv beta iota zeta in Ht
    | progress cbn [fst snd negb size_map_ stats_ lock_ with_stats
                    fresh_instance] in Ht ].
  all: subst t; split;
    [ rewrite ?driver_calls_app, ?driver_calls_log;
      destruct (0 <? platform_gpu_id), e0, d, (pfree =? cudaSuccess);
      try discriminate E0; reflexivity
    | rewrite ?errors_logged_app, ?errors_logged_log;
      destruct (0 <? platform_gpu_id), e0, d, (pfree =? cudaSuccess),
        (sup =? 0), (e1 =? cudaSuccess), (e2 =? cudaSuccess),
        (e3 =? cudaSuccess); try discriminate E0; reflexivity ].
Qed.

(** X3. A construction that returns issues the same driver calls in the
    same order whatever the set-up steps answer: a failing stream creation,
    pool query or threshold setting, or missing pool support, is only
    logged and the next step is still taken.  The sequence depends only on
    the device index, the determinism flag, the pre-fill flag and the two
    answers to the pre-fill. *)
Theorem construct_driver_call_sequence env platform_gpu_id pool_size
    reserve_memory :
  ctor_aborts env platform_gpu_id = false ->
  driver_calls (trace (GPUcudaMallocAsyncAllocator_new env platform_gpu_id
                         pool_size reserve_memory)) =
    construct_driver_calls env platform_gpu_id reserve_memory.
Proof.
  intros Hrun.
  exact (proj1 (construct_trace_summary env platform_gpu_id pool_size
                  reserve_memory Hrun)).
Qed.

Lemma construct_driver_call_sequence_witness :
  ctor_aborts unsupported_env 1 = false /\
  driver_calls (trace (GPUcudaMallocAsyncAllocator_new unsupported_env 1
                         4096 true)) =
    [cudaMalloc; cudaFree; cudaDeviceGetAttribute; cudaStreamCreate;
     cudaDeviceGetDefaultMemPool; cudaMemPoolSetAttribute;
     cudaMallocFromPoolAsync; cudaMemGetInfo; cudaFreeAsync; cudaMemGetInfo].
Proof.
  assert (Hrun : ctor_aborts unsupported_env 1 = false) by reflexivity.
  split; [exact Hrun|].
  exact (construct_driver_call_sequence unsupported_env 1 4096 true Hrun).
Defined.

(** X4. A construction that returns writes one error line for each step
    that fails (missing pool support, stream creation, pool query,
    threshold setting, and the two driver calls of the pre-fill) and no
    other. *)
Theorem construct_logs_each_failure env platform_gpu_id pool_size
    reserve_memory :
  ctor_aborts env platform_gpu_id = false ->
  errors_logged (trace (GPUcudaMallocAsyncAllocator_new env platform_gpu_id
                          pool_size reserve_memory)) =
    construct_failures env reserve_memory.
Proof.
  intros Hrun.
  exact (proj2 (construct_trace_summary env platform_gpu_id pool_size
                  reserve_memory Hrun)).
Qed.

Lemma construct_logs_each_failure_witness :
  ctor_aborts unsupported_env 0 = false /\
  errors_logged (trace (GPUcudaMallocAsyncAllocator_new unsupported_env 0
                          4096 true)) = 5%nat /\
  errors_logged (trace (GPUcudaMallocAsyncAllocator_new example_env 0
                          4096 true)) = 0%nat.
Proof.
  assert (H1 : ctor_aborts unsupported_env 0 = false) by reflexivity.
  assert (H2 : ctor_aborts example_env 0 = false) by reflexivity.
  split_and!; [exact H1 | |].
  - exact (construct_logs_each_failure unsupported_env 0 4096 true H1).
  - exact (construct_logs_each_failure example_env 0 4096 true H2).
Defined.

(** X5. When the allocator is built for a device other than device 0, the
    first driver calls of the constructor are the throw-away [cudaMalloc]
    and [cudaFree] on device 0, before the attribute query of the target
    device; for device 0 itself no [cudaMalloc] or [cudaFree] is issued. *)
Theorem construct_touches_device_0_first env platform_gpu_id pool_size
    reserve_memory :
  ctor_aborts env platform_gpu_id = false ->
  let calls := driver_calls (trace (GPUcudaMallocAsyncAllocator_new env
                 platform_gpu_id pool_size reserve_memory)) in
  (0 < platform_gpu_id ->
   exists rest,
     calls = cudaMalloc :: cudaFree :: cudaDeviceGetAttribute :: rest) /\
  (platform_gpu_id <= 0 ->
   (cudaMalloc ∉ calls) /\ (cudaFree ∉ calls) /\
   exists rest, calls = cudaDeviceGetAttribute :: rest).
Proof.
  intros Hrun calls. subst calls.
  rewrite (proj1 (construct_trace_summary env platform_gpu_id pool_size
                    reserve_memory Hrun)).
  unfold construct_driver_calls. split; intros Hid.
  - apply Z.ltb_lt in Hid. rewrite Hid. eexists. reflexivity.
  - apply Z.ltb_ge in Hid. rewrite Hid. cbn [app].
    destruct (deterministic_ops_env env) as [[|]|], reserve_memory,
      (fst (prewarm_alloc env) =? cudaSuccess),
      (prewarm_free env =? cudaSuccess); cbn;
      (split_and!; [ | | eexists; reflexivity]);
      rewrite !elem_of_cons, elem_of_nil; intuition discriminate.
Qed.

Lemma construct_touches_device_0_first_witness :
  ctor_aborts example_env 3 = false /\ 0 < 3 /\
  exists rest,
    driver_calls (trace (GPUcudaMallocAsyncAllocator_new example_env 3 4096
                           false)) =
      cudaMalloc :: cudaFree :: cudaDeviceGetAttribute :: rest.
Proof.
  assert (Hrun : ctor_aborts example_env 3 = false) by reflexivity.
  assert (Hid : 0 < 3) by reflexivity.
  split_and!; [exact Hrun | exact Hid |].
  exact (proj1 (construct_touches_device_0_first example_env 3 4096 false
                  Hrun) Hid).
Defined.

(** ** Runs of calls *)

Lemma exec_all_cons c cs s : exec_all (c :: cs) s = exec_all cs (exec c s).
Proof. reflexivity. Qed.

Lemma to_int64_idem_add a n : to_int64 (to_int64 a + n) = to_int64 (a + n).
Proof.
  apply to_int64_mod_eq.
  now rewrite <- Zplus_mod_idemp_l, to_int64_congr_mod, Zplus_mod_idemp_l.
Qed.

Lemma to_int64_idem_sub a n : to_int64 (to_int64 a - n) = to_int64 (a - n).
Proof.
  apply to_int64_mod_eq.
  now rewrite <- Zminus_mod_idemp_l, to_int64_congr_mod, Zminus_mod_idemp_l.
Qed.

Lemma granted_sizes_cons c cs :
  granted_sizes (c :: cs) =
    match granted c with
    | Some n => n :: granted_sizes cs
    | None => granted_sizes cs
    end.
Proof. reflexivity. Qed.

(** X6. Without a [ClearStats] in between, [num_allocs] counts the
    allocations the driver granted: after a run it is the old value plus
    the number of granted allocations (converted to [int64]); refused
    allocations, deallocations and [GetStats] do not count. *)
Theorem num_allocs_counts_granted s cs :
  is_int64 (num_allocs (stats_ s)) ->
  forallb (fun c => negb (is_ClearStats c)) cs = true ->
  num_allocs (stats_ (exec_all cs s)) =
    to_int64 (num_allocs (stats_ s) + Z.of_nat (length (granted_sizes cs))).
Proof.
  revert s. induction cs as [|c cs IH]; intros s Hn Hcs.
  - cbn. rewrite Z.add_0_r. symmetry. now apply to_int64_id.
  - cbn [forallb] in Hcs. apply andb_prop in Hcs as [Hc Hcs].
    rewrite exec_all_cons, granted_sizes_cons.
    destruct c as [drv alignment num_bytes|drv ptr| |]; try discriminate;
      cbn [granted].
    + rewrite exec_AllocateRaw.
      destruct (fst drv =? cudaSuccess); [|now apply IH].
      rewrite IH; [|apply to_int64_is_int64|exact Hcs].
      cbn. unfold pre_incr. rewrite to_int64_idem_add. f_equal. lia.
    + rewrite IH; rewrite ?exec_DeallocateRaw; [reflexivity|exact Hn|exact Hcs].
    + rewrite IH; [reflexivity|exact Hn|exact Hcs].
Qed.

Lemma num_allocs_counts_granted_witness :
  let cs := [CallAllocateRaw (cudaSuccess, 4096) 0 1024;
             CallAllocateRaw (cudaErrorMemoryAllocation, 0) 0 65536;
             CallAllocateRaw (cudaSuccess, 8192) 0 4096;
             CallDeallocateRaw cudaSuccess 4096; CallGetStats] in
  is_int64 (num_allocs (stats_ fresh_instance)) /\
  num_allocs (stats_ (exec_all cs fresh_instance)) = 2.
Proof.
  assert (Hn : is_int64 (num_allocs (stats_ fresh_instance)))
    by compute_done.
  split; [exact Hn|].
  exact (num_allocs_counts_granted fresh_instance
           [CallAllocateRaw (cudaSuccess, 4096) 0 1024;
            CallAllocateRaw (cudaErrorMemoryAllocation, 0) 0 65536;
            CallAllocateRaw (cudaSuccess, 8192) 0 4096;
            CallDeallocateRaw cudaSuccess 4096; CallGetStats] Hn eq_refl).
Defined.

(** X7. Without a [ClearStats] in between, [largest_alloc_size] is the
    largest of its old value and the sizes of the allocations the driver
    granted, as long as these sizes fit an [int64]. *)
Theorem largest_alloc_size_is_max s cs :
  0 <= largest_alloc_size (stats_ s) <= int64_max ->
  Forall (fun n => 0 <= n <= int64_max) (granted_sizes cs) ->
  forallb (fun c => negb (is_ClearStats c)) cs = true ->
  largest_alloc_size (stats_ (exec_all cs s)) =
    fold_left Z.max (granted_sizes cs) (largest_alloc_size (stats_ s)).
Proof.
  revert s. induction cs as [|c cs IH]; intros s Hl Hsz Hcs; [reflexivity|].
  cbn [forallb] in Hcs. apply andb_prop in Hcs as [Hc Hcs].
  rewrite exec_all_cons. rewrite granted_sizes_cons in *.
  destruct c as [drv alignment num_bytes|drv ptr| |]; try discriminate;
    cbn [granted] in *.
  - rewrite exec_AllocateRaw.
    destruct (fst drv =? cudaSuccess); [|now apply IH].
    apply Forall_cons in Hsz as [Hn Hsz]. cbn [fold_left].
    rewrite IH; cbn; rewrite ?max_size_t_exact by assumption;
      [reflexivity | lia | exact Hsz | exact Hcs].
  - rewrite IH; rewrite ?exec_DeallocateRaw; [reflexivity | | |]; assumption.
  - rewrite IH; [reflexivity | | |]; assumption.
Qed.

Lemma largest_alloc_size_is_max_witness :
  let cs := [CallAllocateRaw (cudaSuccess, 4096) 0 1024;
             CallAllocateRaw (cudaErrorMemoryAllocation, 0) 0 65536;
             CallAllocateRaw (cudaSuccess, 8192) 0 4096;
             CallDeallocateRaw cudaSuccess 8192;
             CallAllocateRaw (cudaSuccess, 8192) 0 512] in
  Forall (fun n => 0 <= n <= int64_max) (granted_sizes cs) /\
  largest_alloc_size (stats_ (exec_all cs fresh_instance)) = 4096.
Proof.
  assert (Hl : 0 <= largest_alloc_size (stats_ fresh_instance) <= int64_max)
    by compute_done.
  assert (Hsz : Forall (fun n => 0 <= n <= int64_max)
                  (granted_sizes
                     [CallAllocateRaw (cudaSuccess, 4096) 0 1024;
                      CallAllocateRaw (cudaErrorMemoryAllocation, 0) 0 65536;
                      CallAllocateRaw (cudaSuccess, 8192) 0 4096;
                      CallDeallocateRaw cudaSuccess 8192;
                      CallAllocateRaw (cudaSuccess, 8192) 0 512]))
    by compute_done.
  split; [exact Hsz|].
  exact (largest_alloc_size_is_max fresh_instance
           [CallAllocateRaw (cudaSuccess, 4096) 0 1024;
            CallAllocateRaw (cudaErrorMemoryAllocation, 0) 0 65536;
            CallAllocateRaw (cudaSuccess, 8192) 0 4096;
            CallDeallocateRaw cudaSuccess 8192;
            CallAllocateRaw (cudaSuccess, 8192) 0 512] Hl Hsz eq_refl).
Defined.

(** X8. Whatever the sizes, [bytes_in_use] is the [int64] image of the sum
    of the recorded sizes: this holds with no bound on the counters, after
    any run in which the driver hands out only addresses that are not live
    (or recorded with size zero). *)
Theorem bytes_in_use_wraps_with_sum s cs :
  bytes_in_use (stats_ s) = to_int64 (sum_sizes (size_map_ s)) ->
  fresh_run cs s ->
  bytes_in_use (stats_ (exec_all cs s)) =
    to_int64 (sum_sizes (size_map_ (exec_all cs s))).
Proof.
  revert s. induction cs as [|c cs IH]; intros s Hb Hfresh; [exact Hb|].
  destruct Hfresh as [Hc Hcs]. rewrite exec_all_cons.
  apply IH; [|exact Hcs]. clear IH Hcs.
  destruct c as [drv alignment num_bytes|drv ptr| |].
  - rewrite exec_AllocateRaw.
    destruct (Z.eqb_spec (fst drv) cudaSuccess) as [E|_]; [|exact Hb].
    cbn. rewrite sum_sizes_insert, (Hc E), add_assign_eq, Hb,
      to_int64_idem_add.
    f_equal. lia.
  - rewrite exec_DeallocateRaw. cbn.
    rewrite sub_assign_eq, Hb, to_int64_idem_sub. f_equal.
    destruct (size_map_ s !! ptr) as [v|] eqn:E; cbn.
    + rewrite (sum_sizes_delete _ ptr v E). lia.
    + rewrite delete_id by exact E. lia.
  - exact Hb.
  - exact Hb.
Qed.

Lemma bytes_in_use_wraps_with_sum_witness :
  let cs := [CallAllocateRaw (cudaSuccess, 4096) 0 (2 ^ 63);
             CallAllocateRaw (cudaSuccess, 8192) 0 (2 ^ 63);
             CallDeallocateRaw cudaSuccess 4096] in
  fresh_run cs fresh_instance /\
  bytes_in_use (stats_ (exec_all cs fresh_instance)) =
    to_int64 (sum_sizes (size_map_ (exec_all cs fresh_instance))).
Proof.
  assert (Hb : bytes_in_use (stats_ fresh_instance) =
               to_int64 (sum_sizes (size_map_ fresh_instance)))
    by reflexivity.
  assert (Hf : fresh_run [CallAllocateRaw (cudaSuccess, 4096) 0 (2 ^ 63);
                          CallAllocateRaw (cudaSuccess, 8192) 0 (2 ^ 63);
                          CallDeallocateRaw cudaSuccess 4096] fresh_instance).
  { cbn [fresh_run]. split_and!; try exact I; intros _; reflexivity. }
  split; [exact Hf|].
  exact (bytes_in_use_wraps_with_sum fresh_instance _ Hb Hf).
Defined.

(** X9. The keys of the size-tracking map are the live addresses: after a
    run they are the keys from before, plus the addresses of the granted
    allocations, minus the addresses passed to [DeallocateRaw], in the
    order of the calls.  In particular [DeallocateRaw] of an address that
    is not tracked leaves no key behind. *)
Theorem tracked_addresses_are_live s cs :
  dom (size_map_ (exec_all cs s)) = fold_left live_step cs (dom (size_map_ s)).
Proof.
  revert s. induction cs as [|c cs IH]; intros s; [reflexivity|].
  rewrite exec_all_cons, IH. cbn [fold_left]. f_equal.
  destruct c as [drv alignment num_bytes|drv ptr| |]; cbn [live_step].
  - rewrite exec_AllocateRaw.
    destruct (fst drv =? cudaSuccess); [|reflexivity].
    cbn. apply dom_insert_L.
  - rewrite exec_DeallocateRaw. cbn. apply dom_delete_L.
  - reflexivity.
  - reflexivity.
Qed.

(** X10. Reading the statistics does not disturb the bookkeeping: a run
    and the same run without its [GetStats] calls end with the same
    statistics and the same size-tracking map, whatever the state of the
    mutex at the start. *)
Theorem GetStats_is_transparent s s' cs :
  bookkeeping s = bookkeeping s' ->
  bookkeeping (exec_all cs s) =
    bookkeeping (exec_all (List.filter (fun c => negb (is_GetStats c)) cs) s').
Proof.
  revert s s'. induction cs as [|c cs IH]; intros s s' Hs; [exact Hs|].
  assert (Hstep : bookkeeping (exec c s) = bookkeeping (exec c s')).
  { unfold bookkeeping in *. injection Hs as Hst Hm.
    destruct c as [drv alignment num_bytes|drv ptr| |].
    - rewrite !exec_AllocateRaw.
      destruct (fst drv =? cudaSuccess); cbn; now rewrite Hst, Hm.
    - rewrite !exec_DeallocateRaw. cbn. now rewrite Hst, Hm.
    - cbn. now rewrite Hst, Hm.
    - cbn. now rewrite Hst, Hm. }
  rewrite exec_all_cons.
  destruct c as [drv alignment num_bytes|drv ptr| |]; cbn [List.filter
    is_GetStats negb]; rewrite ?exec_all_cons; apply IH;
    first [exact Hstep | exact Hs].
Qed.

Lemma GetStats_is_transparent_witness :
  let cs := [CallGetStats; CallAllocateRaw (cudaSuccess, 4096) 0 1024;
             CallGetStats; CallDeallocateRaw cudaSuccess 4096] in
  bookkeeping fresh_instance = bookkeeping (with_lock true fresh_instance) /\
  bookkeeping (exec_all cs fresh_instance) =
    bookkeeping (exec_all [CallAllocateRaw (cudaSuccess, 4096) 0 1024;
                           CallDeallocateRaw cudaSuccess 4096]
                          (with_lock true fresh_instance)).
Proof.
  assert (Hs : bookkeeping fresh_instance =
               bookkeeping (with_lock true fresh_instance)) by reflexivity.
  split; [exact Hs|].
  exact (GetStats_is_transparent fresh_instance
           (with_lock true fresh_instance)
           [CallGetStats; CallAllocateRaw (cudaSuccess, 4096) 0 1024;
            CallGetStats; CallDeallocateRaw cudaSuccess 4096] Hs).
Defined.

(** X11. No method returns with the mutex held: called with [lock_] free,
    every call leaves it free, and in the events of every call each
    acquisition of the mutex is matched by a release. *)
Theorem mutex_is_released s cs :
  lock_ s = false ->
  lock_ (exec_all cs s) = false /\
  count_action Acquire (events_all cs s) =
    count_action Release (events_all cs s).
Proof.
  revert s. induction cs as [|c cs IH]; intros s Hs; [now split|].
  assert (Hc : lock_ (exec c s) = false /\
               count_action Acquire (events c s) =
                 count_action Release (events c s)).
  { destruct c as [drv alignment num_bytes|drv ptr| |]; cbn [events].
    - rewrite exec_AllocateRaw, trace_AllocateRaw.
      destruct (fst drv =? cudaSuccess); now split.
    - rewrite exec_DeallocateRaw, trace_DeallocateRaw.
      destruct (drv =? cudaSuccess), (size_map_ s !! ptr); now split.
    - now split.
    - now split. }
  destruct Hc as [Hl Hbal]. destruct (IH _ Hl) as [IH1 IH2].
  rewrite exec_all_cons. split; [exact IH1|].
  cbn [events_all]. unfold count_action in *.
  rewrite !List.filter_app, !length_app. lia.
Qed.

Lemma mutex_is_released_witness :
  lock_ fresh_instance = false /\
  lock_ (exec_all example_calls fresh_instance) = false.
Proof.
  assert (Hs : lock_ fresh_instance = false) by reflexivity.
  split; [exact Hs|].
  exact (proj1 (mutex_is_released fresh_instance example_calls Hs)).
Defined.

(** ** Pairs of calls *)

(** X12. Allocating and then freeing is exact: when the driver grants
    [num_bytes] at an address [p] that is not tracked and [p] is then
    passed to [DeallocateRaw], [bytes_in_use] and the size-tracking map are
    back to what they were, for every [num_bytes] (also one for which the
    addition wraps around) and every status that [cudaFreeAsync] returns;
    [num_allocs] has counted the allocation. *)
Theorem allocate_then_deallocate s p alignment num_bytes drv :
  size_map_ s !! p = None ->
  is_int64 (bytes_in_use (stats_ s)) ->
  let s1 := exec (CallAllocateRaw (cudaSuccess, p) alignment num_bytes) s in
  let s2 := exec (CallDeallocateRaw drv p) s1 in
  bytes_in_use (stats_ s2) = bytes_in_use (stats_ s) /\
  size_map_ s2 = size_map_ s /\
  num_allocs (stats_ s2) = pre_incr (num_allocs (stats_ s)) /\
  bytes_limit (stats_ s2) = bytes_limit (stats_ s) /\
  lock_ s2 = lock_ s.
Proof.
  intros Hp Hb s1 s2. subst s1 s2.
  rewrite exec_DeallocateRaw, exec_AllocateRaw. cbn.
  rewrite lookup_insert_eq, delete_insert_id by exact Hp. cbn.
  rewrite sub_assign_add_assign, to_int64_id by exact Hb.
  now split_and!.
Qed.

Lemma allocate_then_deallocate_witness :
  let s := final (AllocateRaw (cudaSuccess, 4096) 0 1024 fresh_instance) in
  let s2 := exec (CallDeallocateRaw cudaErrorNotSupported 8192)
              (exec (CallAllocateRaw (cudaSuccess, 8192) 0 (2 ^ 64 - 1)) s) in
  size_map_ s !! 8192 = None /\
  bytes_in_use (stats_ s2) = 1024 /\
  size_map_ s2 = size_map_ s.
Proof.
  assert (Hp : size_map_ (final (AllocateRaw (cudaSuccess, 4096) 0 1024
                 fresh_instance)) !! 8192 = None) by reflexivity.
  assert (Hb : is_int64 (bytes_in_use (stats_ (final (AllocateRaw
                 (cudaSuccess, 4096) 0 1024 fresh_instance)))))
    by compute_done.
  pose proof (allocate_then_deallocate _ 8192 0 (2 ^ 64 - 1)
                cudaErrorNotSupported Hp Hb) as (H1 & H2 & _).
  cbv zeta. split_and!; [exact Hp | | exact H2].
  rewrite H1. reflexivity.
Defined.

(** X13. Freeing twice does no further harm to the bookkeeping: a second
    [DeallocateRaw] of the same address, whatever the driver answers,
    leaves the instance exactly as the first one left it. *)
Theorem deallocate_twice s p drv drv' :
  final (DeallocateRaw drv' p (final (DeallocateRaw drv p s))) =
    final (DeallocateRaw drv p s).
Proof.
  rewrite !final_effect, !effect_DeallocateRaw. cbn.
  rewrite lookup_delete_eq, delete_delete_eq. cbn.
  rewrite (sub_assign_eq _ 0), Z.sub_0_r, sub_assign_eq.
  rewrite (to_int64_id (to_int64 _)) by apply to_int64_is_int64.
  reflexivity.
Qed.

(** ** Size queries *)

(** X14. A size query returns a size exactly for a non-null address with a
    record in the size-tracking map, and then it is the recorded size; in
    every case the query changes nothing, and [AllocatedSize] and
    [RequestedSize] end the same way. *)
Theorem size_query_returns_recorded_size s p v :
  (result (RequestedSize p s) = Normal v <->
   p <> nullptr /\ size_map_ s !! p = Some v) /\
  result (AllocatedSize p s) = result (RequestedSize p s) /\
  final (RequestedSize p s) = s /\
  final (AllocatedSize p s) = s.
Proof.
  change (AllocatedSize p s) with (RequestedSize p s).
  destruct (RequestedSize_run p s) as [Hres Hfin]. rewrite Hres, Hfin.
  split_and!; try reflexivity.
  destruct (Z.eqb_spec p nullptr) as [E|E].
  - split; [discriminate | intros [Hp _]; contradiction].
  - destruct (size_map_ s !! p) as [w|].
    + split; [intros [= ->]; now split | intros [_ [= ->]]; reflexivity].
    + split; [discriminate | intros [_ Hp]; discriminate].
Qed.

(** ** A live address handed out again *)

(** X15. If the driver grants an allocation at an address that is still
    tracked, the old record is overwritten and its size is never taken off
    again: from an accounted state, [bytes_in_use] then exceeds the sum of
    the recorded sizes by exactly the size that was lost. *)
Theorem reused_address_overstates_bytes_in_use s p v alignment num_bytes :
  accounted s ->
  size_map_ s !! p = Some v ->
  0 <= num_bytes ->
  bytes_in_use (stats_ s) + num_bytes <= int64_max ->
  let s1 := exec (CallAllocateRaw (cudaSuccess, p) alignment num_bytes) s in
  size_map_ s1 !! p = Some num_bytes /\
  bytes_in_use (stats_ s1) - sum_sizes (size_map_ s1) = v.
Proof.
  intros (Hc & Hm & Hsum) Hp Hn Hfit s1. subst s1.
  rewrite exec_AllocateRaw. cbn.
  destruct Hc as (_ & Hb & _).
  rewrite lookup_insert_eq, sum_sizes_insert, Hp, add_assign_exact.
  - cbn. split; [reflexivity | lia].
  - unfold is_int64. rewrite int64_min_eq. lia.
Qed.

Lemma reused_address_overstates_bytes_in_use_witness :
  let s := final (AllocateRaw (cudaSuccess, 4096) 0 1024 fresh_instance) in
  let s1 := exec (CallAllocateRaw (cudaSuccess, 4096) 0 512) s in
  accounted s /\
  size_map_ s !! 4096 = Some 1024 /\
  bytes_in_use (stats_ s1) - sum_sizes (size_map_ s1) = 1024.
Proof.
  assert (Hacc : accounted (final (AllocateRaw (cudaSuccess, 4096) 0 1024
                   fresh_instance))) by compute_done.
  assert (Hp : size_map_ (final (AllocateRaw (cudaSuccess, 4096) 0 1024
                 fresh_instance)) !! 4096 = Some 1024) by reflexivity.
  assert (Hn : 0 <= 512) by discriminate.
  assert (Hfit : bytes_in_use (stats_ (final (AllocateRaw (cudaSuccess, 4096)
                   0 1024 fresh_instance))) + 512 <= int64_max)
    by compute_done.
  cbv zeta. split_and!; [exact Hacc | exact Hp |].
  exact (proj2 (reused_address_overstates_bytes_in_use _ 4096 1024 0 512
                  Hacc Hp Hn Hfit)).
Defined.

(** ** The statistics a client reads *)

Lemma exec_bytes_limit c s :
  bytes_limit (stats_ (exec c s)) = bytes_limit (stats_ s).
Proof.
  destruct c as [drv alignment num_bytes|drv ptr| |].
  - rewrite exec_AllocateRaw. now destruct (fst drv =? cudaSuccess).
  - now rewrite exec_DeallocateRaw.
  - reflexivity.
  - reflexivity.
Qed.

Lemma exec_all_bytes_limit cs s :
  bytes_limit (stats_ (exec_all cs s)) = bytes_limit (stats_ s).
Proof.
  revert s. induction cs as [|c cs IH]; intros s; [reflexivity|].
  now rewrite exec_all_cons, IH, exec_bytes_limit.
Qed.

(** X16. The limit a client reads is the pool size given at construction:
    after any run of calls on a constructed instance, [GetStats] returns a
    record (never an empty result), it is the current statistics record,
    and its [bytes_limit] is the pool size converted to [int64]. *)
Theorem GetStats_reports_pool_size env platform_gpu_id pool_size
    reserve_memory cs :
  result (GPUcudaMallocAsyncAllocator_new env platform_gpu_id pool_size
            reserve_memory) = Normal tt ->
  let s := exec_all cs (final (GPUcudaMallocAsyncAllocator_new env
                                 platform_gpu_id pool_size reserve_memory)) in
  result (GetStats s) = Normal (Some (stats_ s)) /\
  bytes_limit (stats_ s) = Some (to_int64 pool_size).
Proof.
  intros Hres s. subst s. split; [reflexivity|].
  rewrite exec_all_bytes_limit, (construct_final _ _ _ _ Hres).
  reflexivity.
Qed.

Lemma GetStats_reports_pool_size_witness :
  let a := GPUcudaMallocAsyncAllocator_new example_env 0 65536 true in
  result a = Normal tt /\
  bytes_limit (stats_ (exec_all example_calls (final a))) = Some 65536.
Proof.
  assert (Hres : result (GPUcudaMallocAsyncAllocator_new example_env 0 65536
                           true) = Normal tt) by reflexivity.
  split; [exact Hres|].
  exact (proj2 (GetStats_reports_pool_size example_env 0 65536 true
                  example_calls Hres)).
Defined.

(** ** Error lines of a run *)

(** X17. Every driver failure is logged once and nothing else is: the number
    of error lines written during a run of calls is the number of
    [cudaMallocFromPoolAsync] and [cudaFreeAsync] calls that did not return
    [cudaSuccess], whatever the state of the instance. *)
Theorem run_logs_each_driver_failure s cs :
  errors_logged (events_all cs s) = driver_failures cs.
Proof.
  revert s. induction cs as [|c cs IH]; intros s; [reflexivity|].
  cbn [events_all]. unfold driver_failures in *. cbn [map sum_list].
  rewrite errors_logged_app, IH. f_equal.
  destruct c as [drv alignment num_bytes|drv ptr| |]; cbn [events].
  - rewrite trace_AllocateRaw. unfold failed.
    now destruct (fst drv =? cudaSuccess).
  - rewrite trace_DeallocateRaw. unfold failed.
    now destruct (drv =? cudaSuccess), (size_map_ s !! ptr).
  - reflexivity.
  - reflexivity.
Qed.

(** ** Names *)

(** X18. Instances built for different devices have different names. *)
Theorem names_are_distinct (a b : Z) : a <> b -> name_ a <> name_ b.
Proof.
  intros Hab Hname. apply Hab. unfold name_ in Hname.
  apply (inj pretty). 
  now apply (inj (String.append "gpu_async_")) in Hname.
Qed.

Lemma names_are_distinct_witness :
  0 <> 1 /\ name_ 0 <> name_ 1 /\ name_ 0 = "gpu_async_0" /\
  name_ 17 = "gpu_async_17".
Proof.
  assert (H : 0 <> 1) by discriminate.
  split_and!; [exact H | exact (names_are_distinct 0 1 H) | reflexivity
              | reflexivity].
Defined.

(** ** The high-water mark *)

(** X19. Without a [ClearStats] in between, [peak_bytes_in_use] is the
    high-water mark of [bytes_in_use]: after an admissible run from an
    accounted state whose peak covers the bytes in use, it is the largest
    of its old value and the values [bytes_in_use] had after each call. *)
Theorem peak_is_high_water_mark s cs :
  accounted s ->
  peak_covers s ->
  admissible_run cs s ->
  forallb (fun c => negb (is_ClearStats c)) cs = true ->
  peak_bytes_in_use (stats_ (exec_all cs s)) =
    fold_left Z.max
      (map (fun x => bytes_in_use (stats_ x)) (states_after cs s))
      (peak_bytes_in_use (stats_ s)).
Proof.
  revert s. induction cs as [|c cs IH]; intros s Hacc Hpeak Hadm Hcs;
    [reflexivity|].
  destruct Hadm as [Hc Hadm].
  cbn [forallb] in Hcs. apply andb_prop in Hcs as [Hnc Hcs].
  rewrite exec_all_cons. cbn [states_after map fold_left].
  destruct (exec_peak s c Hacc Hpeak) as [Hpeak' Hmono].
  rewrite IH; [|now apply exec_accounted|exact Hpeak'|exact Hadm|exact Hcs].
  f_equal. unfold peak_covers in Hpeak, Hpeak'.
  destruct c as [drv alignment num_bytes|drv ptr| |]; try discriminate.
  - rewrite exec_AllocateRaw in *.
    destruct (fst drv =? cudaSuccess); cbn in *; lia.
  - rewrite exec_DeallocateRaw in *. cbn in *. lia.
  - cbn in *. lia.
Qed.

Lemma peak_is_high_water_mark_witness :
  let cs := [CallAllocateRaw (cudaSuccess, 4096) 0 1024;
             CallAllocateRaw (cudaSuccess, 8192) 0 4096;
             CallDeallocateRaw cudaSuccess 4096;
             CallAllocateRaw (cudaSuccess, 4096) 0 512] in
  accounted fresh_instance /\
  admissible_run cs fresh_instance /\
  bytes_in_use (stats_ (exec_all cs fresh_instance)) = 4608 /\
  peak_bytes_in_use (stats_ (exec_all cs fresh_instance)) = 5120.
Proof.
  assert (Hacc : accounted fresh_instance) by compute_done.
  assert (Hpeak : peak_covers fresh_instance) by compute_done.
  assert (Hadm : admissible_run
                   [CallAllocateRaw (cudaSuccess, 4096) 0 1024;
                    CallAllocateRaw (cudaSuccess, 8192) 0 4096;
                    CallDeallocateRaw cudaSuccess 4096;
                    CallAllocateRaw (cudaSuccess, 4096) 0 512]
                   fresh_instance) by compute_done.
  split_and!; [exact Hacc | exact Hadm | reflexivity |].
  exact (peak_is_high_water_mark fresh_instance
           [CallAllocateRaw (cudaSuccess, 4096) 0 1024;
            CallAllocateRaw (cudaSuccess, 8192) 0 4096;
            CallDeallocateRaw cudaSuccess 4096;
            CallAllocateRaw (cudaSuccess, 4096) 0 512]
           Hacc Hpeak Hadm eq_refl).
Defined.
